(** * agentbrowser: resolution, retry, form filling, digest and replay

    A shallow embedding of the decision logic of the [agentbrowser] package
    ([elements.py], [actions.py], [forms.py], [page_state.py],
    [extraction.py], [recorder.py], [agent.py]) together with the properties
    its specification states about it.

    Conventions of the embedding.
    - A Python [str] is a [string]; one [ascii] stands for one character
      (code points 0..255), so [len], slicing, [strip] and [lower] count and
      map characters as Python does on that range.
    - A Python [dict] is an association list in insertion order with
      distinct keys; [d[k]] and [d.get(k, default)] are [lookup].
    - An [async def] is a computation in the monad [M]: it threads a [World]
      (a clock counting the sleeps performed and the trace of the
      interactions with the driver) and ends in a value or a raised
      exception. An [await] is a bind, so two awaited calls never overlap.
    - The page driver (Playwright) is an input: a live page maps the clock
      to a snapshot, and a snapshot answers every locator with the ordered
      list of matching elements. Runs in which the driver itself faults are
      not part of the model. *)

From Stdlib Require Import List String Ascii Bool ZArith Arith Lia.
From Stdlib Require Import Floats.PrimFloat.
From Stdlib Require Import DecimalString.
Import ListNotations.

Local Open Scope string_scope.
Local Open Scope list_scope.

(* ------------------------------------------------------------------ *)
(** ** Python strings *)

Module PyStr.

(** The double-quote character, used when a selector is assembled. *)
Definition dquote : string := String "034"%char EmptyString.

(** [str.lower] on one character. *)
Definition lower_char (c : ascii) : ascii :=
  let n := nat_of_ascii c in
  if (((65 <=? n) && (n <=? 90))
      || ((192 <=? n) && (n <=? 222) && negb (n =? 215)))%nat
  then ascii_of_nat (n + 32) else c.

(** [s.lower()] *)
Fixpoint lower (s : string) : string :=
  match s with
  | EmptyString => EmptyString
  | String c s' => String (lower_char c) (lower s')
  end.

(** [c.isspace()] *)
Definition is_space (c : ascii) : bool :=
  let n := nat_of_ascii c in
  (((9 <=? n) && (n <=? 13)) || ((28 <=? n) && (n <=? 32))
   || (n =? 133) || (n =? 160))%nat.

(** [s.lstrip()] *)
Fixpoint lstrip (s : string) : string :=
  match s with
  | EmptyString => EmptyString
  | String c s' => if is_space c then lstrip s' else s
  end.

(** [s.rstrip()] *)
Fixpoint rstrip (s : string) : string :=
  match s with
  | EmptyString => EmptyString
  | String c s' =>
      match rstrip s' with
      | EmptyString => if is_space c then EmptyString else String c EmptyString
      | r => String c r
      end
  end.

(** [s.strip()] *)
Definition strip (s : string) : string := rstrip (lstrip s).

(** [s[:n]] for a literal [n >= 0]. *)
Fixpoint take (n : nat) (s : string) : string :=
  match n, s with
  | S n', String c s' => String c (take n' s')
  | _, _ => EmptyString
  end.

(** [s.startswith(p)] *)
Definition startswith (p s : string) : bool := String.prefix p s.

(** [sub in s] *)
Fixpoint contains (sub s : string) : bool :=
  String.prefix sub s
  || match s with
     | EmptyString => false
     | String _ s' => contains sub s'
     end.

(** [sep.join(parts)] *)
Fixpoint join (sep : string) (parts : list string) : string :=
  match parts with
  | [] => EmptyString
  | [p] => p
  | p :: rest => p ++ sep ++ join sep rest
  end.

(** [x or default] on strings: the empty string is falsy. *)
Definition or_default (x default : string) : string :=
  match x with
  | EmptyString => default
  | _ => x
  end.

(** [x in (a, b, ...)] on strings. *)
Definition mem (x : string) (xs : list string) : bool :=
  existsb (String.eqb x) xs.

End PyStr.

(* ------------------------------------------------------------------ *)
(** ** Python lists, dictionaries and dynamic values *)

Module Py.

(** [range(n)] *)
Definition range (n : Z) : list Z := map Z.of_nat (seq 0 (Z.to_nat n)).

(** [xs[:n]], for any integer [n]: a negative [n] counts from the end. *)
Definition slice_to {A : Type} (xs : list A) (n : Z) : list A :=
  if (0 <=? n)%Z then firstn (Z.to_nat n) xs
  else firstn (List.length xs - Z.to_nat (- n)) xs.

(** The values a recorded argument may hold: what JSON can carry. *)
#[local] Set Warnings "-register-all".
Inductive Value : Type :=
| VNone
| VBool (b : bool)
| VInt (z : Z)
| VFloat (f : float)
| VStr (s : string)
| VDict (d : list (string * Value)).

(** [dict[str, Any]] *)
Definition Dict : Type := list (string * Value).

(** First binding of [k], as [d.get(k)]. *)
Fixpoint lookup {A : Type} (k : string) (d : list (string * A)) : option A :=
  match d with
  | [] => None
  | (k', v) :: d' => if String.eqb k k' then Some v else lookup k d'
  end.

(** [d.get(k, default)] *)
Definition get {A : Type} (k : string) (default : A) (d : list (string * A)) : A :=
  match lookup k d with
  | Some v => v
  | None => default
  end.

End Py.

(* ------------------------------------------------------------------ *)
(** ** Exceptions and results *)

(** The exceptions of [exceptions.py] that the modelled code raises, the
    Python built-ins it can run into, and [Fault] for an exception raised
    by a collaborator (the driver, a replayed method). *)
Inductive Exn : Type :=
| ElementNotFoundError (query : string) (available : list string)
| BrowserNotStartedError
| RecordingError (msg : string)
| KeyError (key : string)
| TypeError
| ValueError
| Fault (msg : string).

Inductive result (A : Type) : Type :=
| Ok (a : A)
| Raise (e : Exn).

Arguments Ok {A} a.
Arguments Raise {A} e.

(* ------------------------------------------------------------------ *)
(** ** recorder.py *)

Module Recorder.
Import Py.

(** [RecordedAction]. A dataclass does not check its field annotations, so
    each field holds a dynamic value: [from_dict] stores what the
    dictionary holds. An action made by [record] has a [VStr], a [VDict]
    and a [VFloat]. *)
Record RecordedAction : Type := mkRecordedAction {
  action : Value;
  args : Value;
  timestamp : Value
}.

(** [RecordedAction.to_dict] *)
Definition to_dict (a : RecordedAction) : Dict :=
  [ ("action", action a); ("args", args a); ("timestamp", timestamp a) ].

(** [RecordedAction.from_dict]: [d["action"]] raises [KeyError] when the
    key is missing; the two other keys have defaults. *)
Definition from_dict (d : Dict) : result RecordedAction :=
  match lookup "action" d with
  | None => Raise (KeyError "action")
  | Some a =>
      Ok (mkRecordedAction a
            (get "args" (VDict []) d)
            (get "timestamp" (VFloat 0%float) d))
  end.

(** [ActionRecorder]: the three private fields. *)
Record ActionRecorder : Type := mkActionRecorder {
  _recording : bool;
  _actions : list RecordedAction;
  _start_time : float
}.

(** [ActionRecorder.__init__] *)
Definition init : ActionRecorder := mkActionRecorder false [] 0%float.

(** [is_recording] *)
Definition is_recording (r : ActionRecorder) : bool := _recording r.

(** [actions]: a copy of the buffer. *)
Definition actions (r : ActionRecorder) : list RecordedAction := _actions r.

(** [ActionRecorder.start]; [now] is the value [time.time()] returns. *)
Definition start (now : float) (r : ActionRecorder) : ActionRecorder :=
  {| _recording := true; _actions := []; _start_time := now |}.

(** [ActionRecorder.stop]: the returned list and the recorder afterwards. *)
Definition stop (r : ActionRecorder) : list RecordedAction * ActionRecorder :=
  (_actions r,
   {| _recording := false; _actions := _actions r; _start_time := _start_time r |}).

(** [ActionRecorder.record(action, **kwargs)]; [now] is the value
    [time.time()] returns when the action is appended. *)
Definition record (now : float) (name : string) (kwargs : Dict)
    (r : ActionRecorder) : ActionRecorder :=
  if negb (_recording r) then r
  else
    {| _recording := _recording r;
       _actions := _actions r ++
         [ mkRecordedAction (VStr name) (VDict kwargs)
             (VFloat (PrimFloat.sub now (_start_time r))) ];
       _start_time := _start_time r |}.

(** A sequence of [record] calls, each with its clock reading. *)
Definition record_all (calls : list (float * string * Dict))
    (r : ActionRecorder) : ActionRecorder :=
  fold_left (fun acc c => record (fst (fst c)) (snd (fst c)) (snd c) acc) calls r.

(** [ActionRecorder.save]: what is handed to [storage.save_recording]. *)
Definition save (r : ActionRecorder) : list Dict := map to_dict (_actions r).

(** The recordings table of the store, as [storage.load_recording] reads
    it: the decoded list of dictionaries, or nothing under that name. *)
Definition Storage : Type := string -> option (list Dict).

(** [[RecordedAction.from_dict(a) for a in raw]] *)
Fixpoint from_dicts (raw : list Dict) : result (list RecordedAction) :=
  match raw with
  | [] => Ok []
  | d :: rest =>
      match from_dict d with
      | Raise e => Raise e
      | Ok a =>
          match from_dicts rest with
          | Raise e => Raise e
          | Ok l => Ok (a :: l)
          end
      end
  end.

(** [ActionRecorder.load] *)
Definition load (name : string) (storage : Storage) : result (list RecordedAction) :=
  match storage name with
  | None => Raise (RecordingError ("Recording '" ++ name ++ "' not found")%string)
  | Some raw => from_dicts raw
  end.

End Recorder.

(* ------------------------------------------------------------------ *)
(** ** The page driver and the world *)

Module Driver.

(** A locator expression, as the code builds it on the page. The name
    pattern of the role, label, placeholder and text locators is always
    [re.compile(re.escape(query), re.IGNORECASE)], so the query stands
    for it. *)
Inductive Locator : Type :=
| ByLocator (selector : string)
| ByRole (role : string) (name : option string)
| ByLabel (query : string)
| ByPlaceholder (query : string)
| ByText (query : string).

(** What the driver reports for one attached element. [tagName] is the
    value of [el.tagName.toLowerCase()]. *)
Record Element : Type := mkElement {
  handle : nat;
  tagName : string;
  inner_text : string;
  type_attr : option string;
  is_checked : bool
}.

(** [FormField] and [DetectedForm] of forms.py. *)
Record FormField : Type := mkFormField {
  ff_label : string;
  field_type : string;
  ff_name : string;
  placeholder : string;
  required : bool;
  options : list string
}.

Record DetectedForm : Type := mkDetectedForm {
  form_action : string;
  method : string;
  fields : list FormField;
  submit_text : string
}.

(** One snapshot of the page: the matches of every locator in driver
    order, and what the form-detection script returns. *)
Record Snapshot : Type := mkSnapshot {
  matches : Locator -> list Element;
  forms : list DetectedForm
}.

(** The live page object: its snapshot at each instant. *)
Definition Page : Type := nat -> Snapshot.

(** The interactions the code has with the outside, in the order they
    happen. *)
Inductive Event : Type :=
| EvFind (query : string)
| EvCount (loc : Locator)
| EvSleep (ms : Z)
| EvRandomDelay (min_ms max_ms : Z)
| EvClick (h : nat)
| EvFill (h : nat) (text : string)
| EvClear (h : nat)
| EvPressSequentially (h : nat) (text : string) (delay : Z)
| EvSelectOption (h : nat) (label : string)
| EvKeyboardPress (key : string).

(** The instant (number of sleeps so far) and the trace, latest last. *)
Record World : Type := mkWorld {
  now : nat;
  trace : list Event
}.

(** Computations: a result or a raised exception, and the world after. *)
Definition M (A : Type) : Type := World -> result A * World.

Definition ret {A : Type} (a : A) : M A := fun w => (Ok a, w).

Definition raise {A : Type} (e : Exn) : M A := fun w => (Raise e, w).

Definition bind {A B : Type} (m : M A) (k : A -> M B) : M B :=
  fun w =>
    match m w with
    | (Ok a, w') => k a w'
    | (Raise e, w') => (Raise e, w')
    end.

(** [try: ... except ...]: the outcome of [m] as a value. *)
Definition try {A : Type} (m : M A) : M (result A) :=
  fun w => let (r, w') := m w in (Ok r, w').

(** An interaction that takes no time. *)
Definition emit (e : Event) : M unit :=
  fun w => (Ok tt, mkWorld (now w) (trace w ++ [e])).

(** An interaction during which time passes. *)
Definition emit_tick (e : Event) : M unit :=
  fun w => (Ok tt, mkWorld (S (now w)) (trace w ++ [e])).

(** [await asyncio.sleep(ms / 1000.0)] *)
Definition sleep (ms : Z) : M unit := emit_tick (EvSleep ms).

(** The elements [loc] matches now; the probe is [await loc.count()],
    and [loc.first] is the head of the list. *)
Definition query_all (page : Page) (loc : Locator) : M (list Element) :=
  fun w => (Ok (matches (page (now w)) loc),
            mkWorld (now w) (trace w ++ [EvCount loc])).

(** [await detect_forms(page)] *)
Definition detect_forms (page : Page) : M (list DetectedForm) :=
  fun w => (Ok (forms (page (now w))), w).

End Driver.

Declare Scope py_scope.
Delimit Scope py_scope with py.
Notation "x <- m ;; k" := (Driver.bind m (fun x => k))
  (at level 100, m at next level, right associativity) : py_scope.
Notation "m ;;; k" := (Driver.bind m (fun _ => k))
  (at level 100, right associativity) : py_scope.

(* ------------------------------------------------------------------ *)
(** ** config.py *)

Module Config.

Record RetryConfig : Type := mkRetryConfig {
  max_retries : Z;
  retry_delay_ms : Z;
  element_timeout_ms : Z
}.

Record StealthConfig : Type := mkStealthConfig {
  enabled : bool;
  random_delay_min_ms : Z;
  random_delay_max_ms : Z;
  mouse_jitter : bool;
  mouse_jitter_px : Z;
  realistic_typing : bool;
  typing_delay_min_ms : Z;
  typing_delay_max_ms : Z
}.

(** The defaults of the two classes. *)
Definition default_retry : RetryConfig := mkRetryConfig 3 1000 10000.

Definition default_stealth : StealthConfig :=
  mkStealthConfig true 500 2000 true 3 true 50 150.

End Config.

(* ------------------------------------------------------------------ *)
(** ** stealth.py *)

Module Stealth.
Import Driver Config.

(** [random_delay]: nothing when pacing is disabled, else one sleep of a
    duration drawn between the two bounds; [random.randint] raises
    [ValueError] when the lower bound is above the upper one. *)
Definition random_delay (config : StealthConfig) : M unit :=
  if negb (enabled config) then ret tt
  else if (random_delay_max_ms config <? random_delay_min_ms config)%Z
  then raise ValueError
  else emit_tick (EvRandomDelay (random_delay_min_ms config)
                                (random_delay_max_ms config)).

End Stealth.

(* ------------------------------------------------------------------ *)
(** ** elements.py *)

Module Elements.
Import Driver Config PyStr.
Local Open Scope py_scope.

(** [FoundElement]. [locator] is [loc.first], kept as the element it
    denotes at the instant of the resolution. *)
Record FoundElement : Type := mkFoundElement {
  locator : Element;
  tag : string;
  text : string;
  role : option string;
  label : option string
}.

(** The tags whose inner text is not read. *)
Definition input_tags : list string := ["input"; "select"; "textarea"].

(** [_looks_like_selector] *)
Definition _looks_like_selector (query : string) : bool :=
  if startswith "//" query || startswith "xpath=" query then true
  else if match query with
          | String c _ => mem (String c EmptyString) ["#"; "."; "["]
          | EmptyString => false
          end then true
  else if contains "::" query || contains " > " query || contains " ~ " query
  then true
  else false.

(** The selector of the sixth step of [find_element]:
    [[title="{query}" i], [aria-label="{query}" i]]. *)
Definition attr_selector (query : string) : string :=
  ("[title=" ++ dquote ++ query ++ dquote ++ " i], [aria-label="
    ++ dquote ++ query ++ dquote ++ " i]")%string.

(** The roles tried by the second step, in order. *)
Definition find_roles : list string :=
  ["button"; "link"; "menuitem"; "tab"; "option"].

(** Step 2 of [find_element]: the loop over the roles; [None] when the
    loop ends without returning. *)
Fixpoint find_by_role (page : Page) (query : string) (roles : list string)
    : M (option FoundElement) :=
  match roles with
  | [] => ret None
  | r :: rest =>
      els <- query_all page (ByRole r (Some query)) ;;
      match els with
      | first :: _ =>
          let tag := or_default (tagName first) r in
          let text := take 100 (strip (inner_text first)) in
          ret (Some (mkFoundElement first tag text (Some r) None))
      | [] => find_by_role page query rest
      end
  end.

(** The roles scanned for the suggestions of a failed resolution. *)
Definition available_roles : list string :=
  ["button"; "link"; "textbox"; "menuitem"].

(** The entries one role contributes: the first five elements, those
    with a non-empty name. *)
Definition available_of_role (r : string) (els : list Element) : list string :=
  flat_map
    (fun el =>
       match take 50 (strip (inner_text el)) with
       | EmptyString => []
       | name => [("[" ++ r ++ "] " ++ name)%string]
       end)
    (firstn 5 els).

(** The loop of [_get_available_interactive]. *)
Fixpoint available_loop (page : Page) (limit : Z) (roles : list string)
    (items : list string) : M (list string) :=
  match roles with
  | [] => ret items
  | r :: rest =>
      els <- query_all page (ByRole r None) ;;
      let items' := (items ++ available_of_role r els)%list in
      if (limit <=? Z.of_nat (List.length items'))%Z then ret items'
      else available_loop page limit rest items'
  end.

(** [_get_available_interactive] *)
Definition _get_available_interactive (page : Page) (limit : Z)
    : M (list string) :=
  items <- available_loop page limit available_roles [] ;;
  ret (Py.slice_to items limit).

(** [find_element]. The [config] argument is accepted and not used. *)
Definition find_element (page : Page) (query : string)
    (config : option RetryConfig) : M FoundElement :=
  emit (EvFind query) ;;;
  by_selector <-
    (if _looks_like_selector query then
       els <- query_all page (ByLocator query) ;;
       match els with
       | first :: _ =>
           let tag := or_default (tagName first) "unknown" in
           let text :=
             if negb (mem tag input_tags)
             then take 100 (strip (inner_text first)) else "" in
           ret (Some (mkFoundElement first tag text None None))
       | [] => ret None
       end
     else ret None) ;;
  match by_selector with
  | Some found => ret found
  | None =>
  by_role <- find_by_role page query find_roles ;;
  match by_role with
  | Some found => ret found
  | None =>
  els <- query_all page (ByLabel query) ;;
  match els with
  | first :: _ =>
      let tag := or_default (tagName first) "input" in
      ret (mkFoundElement first tag "" None (Some query))
  | [] =>
  els <- query_all page (ByPlaceholder query) ;;
  match els with
  | first :: _ =>
      let tag := or_default (tagName first) "input" in
      ret (mkFoundElement first tag "" None (Some query))
  | [] =>
  els <- query_all page (ByText query) ;;
  match els with
  | first :: _ =>
      let tag := or_default (tagName first) "unknown" in
      let text := take 100 (strip (inner_text first)) in
      ret (mkFoundElement first tag text None None)
  | [] =>
  els <- query_all page (ByLocator (attr_selector query)) ;;
  match els with
  | first :: _ =>
      let tag := or_default (tagName first) "unknown" in
      let text_val :=
        if negb (mem tag input_tags) then inner_text first else "" in
      ret (mkFoundElement first tag (take 100 (strip text_val)) None None)
  | [] =>
  available <- _get_available_interactive page 15 ;;
  raise (ElementNotFoundError query available)
  end end end end end end.

End Elements.

(* ------------------------------------------------------------------ *)
(** ** actions.py *)

Module Actions.
Import Driver Config Elements.
Local Open Scope py_scope.

(** The [for attempt in range(config.max_retries)] loop of [_with_retry],
    on the attempts still to make, and the [raise last_err] after it
    (raising [None] is a [TypeError]). *)
Fixpoint retry_loop (page : Page) (query : string) (config : RetryConfig)
    (attempts : list Z) (last_err : option Exn) : M FoundElement :=
  match attempts with
  | [] =>
      match last_err with
      | Some e => raise e
      | None => raise TypeError
      end
  | attempt :: rest =>
      r <- try (find_element page query (Some config)) ;;
      match r with
      | Ok found => ret found
      | Raise (ElementNotFoundError q available) =>
          (if (attempt <? max_retries config - 1)%Z
           then sleep (retry_delay_ms config) else ret tt) ;;;
          retry_loop page query config rest
            (Some (ElementNotFoundError q available))
      | Raise e => raise e
      end
  end.

(** [_with_retry] *)
Definition _with_retry (page : Page) (query : string) (config : RetryConfig)
    : M FoundElement :=
  retry_loop page query config (Py.range (max_retries config)) None.

(** [click]; the click timeout does not show in the trace. *)
Definition click (page : Page) (query : string) (retry : RetryConfig)
    (stealth : StealthConfig) : M FoundElement :=
  el <- _with_retry page query retry ;;
  emit (EvClick (handle (locator el))) ;;;
  Stealth.random_delay stealth ;;;
  ret el.

End Actions.

(* ------------------------------------------------------------------ *)
(** ** forms.py *)

Module Forms.
Import Driver Config PyStr Elements.
Local Open Scope py_scope.

(** The literals a checkbox value is compared with. *)
Definition truthy : list string := ["true"; "yes"; "1"; "on"].

(** [should_check = value.lower() in ("true", "yes", "1", "on")] *)
Definition should_check (value : string) : bool := mem (lower value) truthy.

(** [await el.locator.get_attribute("type") or "text"] *)
Definition input_type_of (el : Element) : string :=
  or_default (match type_attr el with Some t => t | None => "" end) "text".

(** The body of the loop of [fill_form], for one [label, value] pair. *)
Definition fill_field (page : Page) (label value : string)
    (retry : RetryConfig) (stealth : StealthConfig) : M unit :=
  el <- find_element page label (Some retry) ;;
  let tag := Elements.tag el in
  let h := handle (locator el) in
  (if String.eqb tag "select" then emit (EvSelectOption h value)
   else if mem tag ["input"; "textarea"] then
     let input_type := input_type_of (locator el) in
     if String.eqb input_type "checkbox" then
       let checked := is_checked (locator el) in
       if negb (Bool.eqb checked (should_check value))
       then emit (EvClick h) else ret tt
     else if String.eqb input_type "radio" then emit (EvClick h)
     else
       emit (EvClear h) ;;;
       (if realistic_typing stealth
        then emit (EvPressSequentially h value (typing_delay_min_ms stealth))
        else emit (EvFill h value))
   else emit (EvFill h value)) ;;;
  Stealth.random_delay stealth.

(** [for label, value in field_values.items(): ...] *)
Fixpoint fill_fields (page : Page) (items : list (string * string))
    (retry : RetryConfig) (stealth : StealthConfig) : M unit :=
  match items with
  | [] => ret tt
  | (label, value) :: rest =>
      fill_field page label value retry stealth ;;;
      fill_fields page rest retry stealth
  end.

(** [fill_form] *)
Definition fill_form (page : Page) (field_values : list (string * string))
    (submit : bool) (retry : RetryConfig) (stealth : StealthConfig) : M unit :=
  fill_fields page field_values retry stealth ;;;
  if submit then
    forms <- detect_forms page ;;
    match forms with
    | form :: _ =>
        r <- try (el <- find_element page (submit_text form) (Some retry) ;;
                  emit (EvClick (handle (locator el)))) ;;
        match r with
        | Ok _ => ret tt
        | Raise _ => emit (EvKeyboardPress "Enter")
        end
    | [] => emit (EvKeyboardPress "Enter")
    end
  else ret tt.

End Forms.

(* ------------------------------------------------------------------ *)
(** ** extraction.py and page_state.py *)

Module Extraction.
Import PyStr.

(** [Link] *)
Record Link : Type := mkLink {
  text : string;
  href : string;
  is_external : bool
}.

(** The list comprehension of [get_links], on the [text, href] pairs the
    page script returns and the page origin. *)
Definition get_links (raw : list (string * string)) (current_origin : string)
    : list Link :=
  map (fun r => mkLink (fst r) (snd r) (negb (startswith current_origin (snd r))))
      raw.

End Extraction.

Module PageState.
Import PyStr Extraction.

(** The test of the [nav_links] comprehension. *)
Definition is_nav_link (l : Link) : bool :=
  negb (is_external l) && (String.length (text l) <? 30)%nat.

(** [nav_links] of [page_summary] *)
Definition nav_links (all_links : list Link) (max_items : Z) : list Link :=
  Py.slice_to (filter is_nav_link all_links) max_items.

(** The lines the navigation step of [page_summary] appends: the
    [NAVIGATION] line when there is a link to show, then the blank line. *)
Definition navigation_lines (all_links : list Link) (max_items : Z)
    : list string :=
  let nl := nav_links all_links max_items in
  (match nl with
   | [] => []
   | _ => [("NAVIGATION: " ++ join " | " (map text (Py.slice_to nl 10)))%string]
   end) ++ [""].

End PageState.

(* ------------------------------------------------------------------ *)
(** ** agent.py: replay *)

Module Agent.
Import Py Recorder.

(** What [getattr(self, name, None)] finds under a name. *)
Inductive Attr : Type :=
| Coroutine   (* a method declared with [async def] *)
| Function    (* a method declared with [def] *)
| Data        (* an instance attribute: a value that is neither callable nor None *)
| Getter      (* a property: reading it checks that the browser is started *)
| Unreadable. (* a property whose getter raises AttributeError *)

(** The names [BrowserAgent] declares, in the order of agent.py. *)
Definition class_attrs : list (string * Attr) :=
  [ ("__init__", Function);
    ("_config", Data); ("_manager", Data); ("_storage", Data);
    ("_recorder", Data); ("_started", Data);
    ("start", Coroutine); ("close", Coroutine);
    ("__aenter__", Coroutine); ("__aexit__", Coroutine);
    ("_ensure_started", Function);
    ("page", Getter); ("url", Getter); ("title", Unreadable);
    ("get_title", Coroutine);
    ("goto", Coroutine); ("back", Coroutine); ("forward", Coroutine);
    ("refresh", Coroutine);
    ("click", Coroutine); ("type", Coroutine); ("hover", Coroutine);
    ("select", Coroutine);
    ("scroll_down", Coroutine); ("scroll_up", Coroutine);
    ("scroll_to", Coroutine);
    ("wait_for", Coroutine); ("wait", Coroutine);
    ("get_text", Coroutine); ("get_links", Coroutine);
    ("get_tables", Coroutine); ("get_meta", Coroutine);
    ("page_summary", Coroutine); ("screenshot", Coroutine);
    ("fill_form", Coroutine); ("detect_forms", Coroutine);
    ("save_profile", Coroutine); ("load_profile", Coroutine);
    ("list_profiles", Function);
    ("start_recording", Function); ("stop_recording", Function);
    ("save_recording", Function);
    ("replay", Coroutine); ("press", Coroutine); ("evaluate", Coroutine) ].

(** The verb names the agent hands to [self._recorder.record]: the names
    a recording made by this agent can hold. *)
Definition recorded_verbs : list string :=
  [ "goto"; "back"; "forward"; "refresh"; "click"; "type"; "hover";
    "select"; "scroll_down"; "scroll_up"; "scroll_to"; "screenshot";
    "fill_form"; "press" ].

(** One invocation made by [replay]: the method name and the keyword
    arguments. *)
Definition Call : Type := (string * Dict)%type.

Section Replay.

(** The attributes [BrowserAgent] inherits (from [object]): consulted for
    a name the class does not declare. *)
Variable inherited : string -> option Attr.

(** Whether an invoked method raises, given the invocations made before
    it; [None] when it returns. *)
Variable call_outcome : list Call -> Call -> option Exn.

(** Whether reading a property raises ([BrowserNotStartedError]), given
    the invocations made before. *)
Variable getter_outcome : list Call -> string -> option Exn.

(** The attribute a name resolves to. *)
Definition agent_attr (name : string) : option Attr :=
  match lookup name class_attrs with
  | Some a => Some a
  | None => inherited name
  end.

(** The body of the loop of [replay] for one recorded action, on the log
    of the invocations made so far. [getattr] wants a string for the
    name, the [**] unpacking wants a mapping, and calling a value that is
    not callable is a [TypeError]. *)
Definition replay_one (recorded : RecordedAction) (log : list Call)
    : result unit * list Call :=
  match action recorded with
  | VStr name =>
      match agent_attr name with
      | None | Some Unreadable => (Ok tt, log)
      | Some Getter =>
          match getter_outcome log name with
          | Some e => (Raise e, log)
          | None => (Raise TypeError, log)
          end
      | Some Data => (Raise TypeError, log)
      | Some Coroutine | Some Function =>
          match args recorded with
          | VDict kwargs =>
              match call_outcome log (name, kwargs) with
              | Some e => (Raise e, log ++ [(name, kwargs)])
              | None => (Ok tt, log ++ [(name, kwargs)])
              end
          | _ => (Raise TypeError, log)
          end
      end
  | _ => (Raise TypeError, log)
  end.

(** [for recorded in actions: ...] *)
Fixpoint replay_loop (actions : list RecordedAction) (log : list Call)
    : result unit * list Call :=
  match actions with
  | [] => (Ok tt, log)
  | recorded :: rest =>
      match replay_one recorded log with
      | (Ok _, log') => replay_loop rest log'
      | (Raise e, log') => (Raise e, log')
      end
  end.

(** [BrowserAgent.replay]; [started] is [self._started]. *)
Definition replay (started : bool) (storage : Storage) (name : string)
    (log : list Call) : result unit * list Call :=
  if negb started then (Raise BrowserNotStartedError, log)
  else
    match load name storage with
    | Raise e => (Raise e, log)
    | Ok actions => replay_loop actions log
    end.




End Replay.

End Agent.

(* ------------------------------------------------------------------ *)
(** ** The vocabulary of the specification *)

(** The strategy chain of the resolver as the specification words it:
    an ordered list of strategies, tried until one has a match. *)
Module Chain.
Import Driver Elements.

Inductive Strategy : Type :=
| SelectorLiteral
| RoleMatch (r : string)
| LabelMatch
| PlaceholderMatch
| FreeText
| TitleAttribute.


(** The fixed order; the selector literal heads the chain exactly when
    the query is classified as a selector. *)
Definition strategy_chain (q : string) : list Strategy :=
  ((if _looks_like_selector q then [SelectorLiteral] else [])
   ++ map RoleMatch ["button"; "link"; "menuitem"; "tab"; "option"]
   ++ [LabelMatch; PlaceholderMatch; FreeText; TitleAttribute])%list.

(** The driver lookup a strategy makes for a query. *)
Definition locator_of (q : string) (s : Strategy) : Locator :=
  match s with
  | SelectorLiteral => ByLocator q
  | RoleMatch r => ByRole r (Some q)
  | LabelMatch => ByLabel q
  | PlaceholderMatch => ByPlaceholder q
  | FreeText => ByText q
  | TitleAttribute => ByLocator (attr_selector q)
  end.

(** The role a descriptor is tagged with. *)
Definition strategy_role (s : Strategy) : option string :=
  match s with
  | RoleMatch r => Some r
  | _ => None
  end.

(** Walking a chain on one snapshot: the strategies tried, in order, up
    to and including the first one with a match, and that strategy with
    its first match in driver order; no later strategy is consulted. *)
Fixpoint first_success (snap : Locator -> list Element) (q : string)
    (chain : list Strategy) : list Strategy * option (Strategy * Element) :=
  match chain with
  | [] => ([], None)
  | s :: rest =>
      match snap (locator_of q s) with
      | e :: _ => ([s], Some (s, e))
      | [] =>
          let (tried, hit) := first_success snap q rest in
          (s :: tried, hit)
      end
  end.

(** The lookups of the strategies tried, as trace events. *)
Definition probe_events (q : string) (tried : list Strategy) : list Event :=
  map (fun s => EvCount (locator_of q s)) tried.

(** A lookup of all the elements of one role: what the collection of
    suggestions makes. *)
Definition is_role_scan (e : Event) : Prop :=
  exists r, e = EvCount (ByRole r None).

End Chain.

(** Reading a trace. *)
Module Trace.
Import Driver.

(** The resolution attempts and the retry sleeps of a trace, in order. *)
Definition is_attempt_or_sleep (e : Event) : bool :=
  match e with
  | EvFind _ | EvSleep _ => true
  | _ => false
  end.

Definition attempts_and_sleeps (evs : list Event) : list Event :=
  filter is_attempt_or_sleep evs.

(** [n] attempts on [q] with a sleep of [ms] between two consecutive
    ones: [n - 1] sleeps in all. *)
Fixpoint retry_shape (q : string) (ms : Z) (n : nat) : list Event :=
  match n with
  | 0 => []
  | 1 => [EvFind q]
  | S n' => EvFind q :: EvSleep ms :: retry_shape q ms n'
  end.

(** The number of resolution attempts in a trace. *)
Definition count_attempts (evs : list Event) : nat :=
  List.length
    (filter (fun e => match e with EvFind _ => true | _ => false end) evs).

(** The retry delays slept, in order. *)
Definition sleeps_of (evs : list Event) : list Z :=
  flat_map (fun e => match e with EvSleep ms => [ms] | _ => [] end) evs.

(** The outcome of a resolution attempt made at instant [t], the trace
    being [tr] so far. *)
Definition attempt (page : Page) (q : string) (cfg : Config.RetryConfig)
    (t : nat) (tr : list Event) : result Elements.FoundElement :=
  fst (Elements.find_element page q (Some cfg) (mkWorld t tr)).

(** The handles clicked, in order. *)
Definition clicks_of (evs : list Event) : list nat :=
  flat_map (fun e => match e with EvClick h => [h] | _ => [] end) evs.

End Trace.

(** The action [record] appends for one call, given the time origin. *)
Definition recorded_of (t0 : float) (c : float * string * Py.Dict)
    : Recorder.RecordedAction :=
  Recorder.mkRecordedAction (Py.VStr (snd (fst c))) (Py.VDict (snd c))
    (Py.VFloat (PrimFloat.sub (fst (fst c)) t0)).

(* ------------------------------------------------------------------ *)
(** ** Concrete pages, used to run the code *)

Module Fixtures.
Import Driver Config.

(** A page with no element at all. *)
Definition empty_snapshot : Snapshot := mkSnapshot (fun _ => []) [].

Definition empty_page : Page := fun _ => empty_snapshot.

(** [<textarea>Draft notes</textarea>]: the text locator finds the
    textarea by its content; nothing else matches. *)
Definition draft_textarea : Element :=
  mkElement 1 "textarea" "Draft notes" None false.

Definition textarea_page : Page :=
  fun _ =>
    mkSnapshot
      (fun loc =>
         match loc with
         | ByText q => if String.eqb q "Draft" then [draft_textarea] else []
         | _ => []
         end)
      [].

(** A form that renders late: the field labelled Email is attached only
    after the first instant. *)
Definition email_input : Element := mkElement 7 "input" "" (Some "email") false.

Definition late_email_page : Page :=
  fun t =>
    match t with
    | 0 => empty_snapshot
    | S _ =>
        mkSnapshot
          (fun loc =>
             match loc with
             | ByLabel q => if String.eqb q "Email" then [email_input] else []
             | _ => []
             end)
          []
    end.

(** The same field, attached only from the third instant on. *)
Definition later_email_page : Page :=
  fun t =>
    match t with
    | 0 | 1 => empty_snapshot
    | _ => late_email_page 1
    end.

(** A checkbox labelled Subscribe, in the given state. *)
Definition subscribe_box (checked : bool) : Element :=
  mkElement 3 "input" "" (Some "checkbox") checked.

Definition subscribe_page (checked : bool) : Page :=
  fun _ =>
    mkSnapshot
      (fun loc =>
         match loc with
         | ByLabel q =>
             if String.eqb q "Subscribe" then [subscribe_box checked] else []
         | _ => []
         end)
      [].

(** Pacing and realistic typing switched off. *)
Definition no_stealth : StealthConfig :=
  mkStealthConfig false 500 2000 true 3 false 50 150.

(** The initial world. *)
Definition w0 : World := mkWorld 0 [].


(** An agent with no inherited attribute, whose methods all return and
    whose properties are readable. *)
Definition no_inherited : string -> option Agent.Attr := fun _ => None.

Definition all_return : list Agent.Call -> Agent.Call -> option Exn :=
  fun _ _ => None.

Definition readable : list Agent.Call -> string -> option Exn :=
  fun _ _ => None.






End Fixtures.

(* ------------------------------------------------------------------ *)
(** ** exceptions.py: the message of a failed resolution *)

Module Exceptions.

Section Message.

(** [str] of a list of strings (Python's [repr] of the list). *)
Variable repr_list : list string -> string.

(** The message [ElementNotFoundError.__init__] hands to [Exception]. *)
Definition not_found_message (query : string) (available : list string)
    : string :=
  let msg := ("Element '" ++ query ++ "' not found.")%string in
  match available with
  | [] => msg
  | _ => (msg ++ " Available: " ++ repr_list (Py.slice_to available 10))%string
  end.

End Message.

End Exceptions.

(* ------------------------------------------------------------------ *)
(** ** elements.py: the other functions *)

Module Matching.
Import Driver PyStr Elements.
Local Open Scope py_scope.

(** [re.sub(r"\s+", " ", s)]: every maximal run of whitespace becomes one
    space; [in_run] tells that the previous character was whitespace. *)
Fixpoint collapse_spaces (in_run : bool) (s : string) : string :=
  match s with
  | EmptyString => EmptyString
  | String c s' =>
      if is_space c then
        if in_run then collapse_spaces true s'
        else String " "%char (collapse_spaces true s')
      else String c (collapse_spaces false s')
  end.

(** [_normalize] *)
Definition _normalize (text : string) : string :=
  collapse_spaces false (lower (strip text)).

(** [_fuzzy_match] *)
Definition _fuzzy_match (query text : string) : bool :=
  let q := _normalize query in
  let t := _normalize text in
  String.eqb q t || contains q t.

(** [find_all_by_role] *)
Definition find_all_by_role (page : Page) (role : string)
    : M (list FoundElement) :=
  els <- query_all page (ByRole role None) ;;
  ret (map (fun el =>
              mkFoundElement el (or_default (tagName el) role)
                (take 100 (strip (inner_text el))) (Some role) None)
           (firstn 50 els)).

End Matching.

(* ------------------------------------------------------------------ *)
(** ** actions.py: selecting an option *)

Module Verbs.
Import Driver Config Elements Actions.
Local Open Scope py_scope.

(** [select_option]; the timeout does not show in the trace. *)
Definition select_option (page : Page) (query value : string)
    (retry : RetryConfig) (stealth : StealthConfig) : M FoundElement :=
  el <- _with_retry page query retry ;;
  emit (EvSelectOption (handle (locator el)) value) ;;;
  Stealth.random_delay stealth ;;;
  ret el.

End Verbs.

(* ------------------------------------------------------------------ *)
(** ** storage.py: the recordings table *)

Module Store.
Import Py Recorder.

(** [Storage.save_recording]: the row under [name] is inserted or, on a
    conflict, its actions and description are replaced. The table is seen
    through its actions column, decoded: the JSON text written and read
    back is taken to carry the list as it is, and the description and the
    creation date are not kept. *)
Definition save_recording (name : string) (actions : list Dict)
    (description : string) (storage : Storage) : Storage :=
  fun n => if String.eqb n name then Some actions else storage n.

(** [Storage.load_recording] *)
Definition load_recording (name : string) (storage : Storage)
    : option (list Dict) :=
  storage name.

(** [Storage.delete_recording]: the table afterwards and whether a row
    was deleted. *)
Definition delete_recording (name : string) (storage : Storage)
    : Storage * bool :=
  (fun n => if String.eqb n name then None else storage n,
   match storage name with Some _ => true | None => false end).

(** [ActionRecorder.save] into a store. *)
Definition save_to (r : ActionRecorder) (name : string) (storage : Storage)
    (description : string) : Storage :=
  save_recording name (save r) description storage.

End Store.

(* ------------------------------------------------------------------ *)
(** ** agent.py: the recorded verbs *)

Module AgentVerbs.
Import Py Driver Config Recorder.

(** The state of a [BrowserAgent] these methods read and write:
    [_started], [_recorder], and the retry and stealth parts of
    [_config]. *)
Record BrowserAgent : Type := mkBrowserAgent {
  _started : bool;
  _recorder : ActionRecorder;
  retry : RetryConfig;
  stealth : StealthConfig
}.

Definition with_recorder (a : BrowserAgent) (r : ActionRecorder) : BrowserAgent :=
  mkBrowserAgent (_started a) r (retry a) (stealth a).

(** The common shape of a recorded verb: [self._ensure_started()], then
    [self._recorder.record(name, **kwargs)], then the awaited action,
    whose value is dropped. [t] is the clock reading of [record]. *)
Definition recorded_verb {A : Type} (t : float) (name : string) (kwargs : Dict)
    (action : M A) (a : BrowserAgent) (w : World)
    : result unit * World * BrowserAgent :=
  if negb (_started a) then (Raise BrowserNotStartedError, w, a)
  else
    let a' := with_recorder a (record t name kwargs (_recorder a)) in
    match action w with
    | (Ok _, w') => (Ok tt, w', a')
    | (Raise e, w') => (Raise e, w', a')
    end.

(** [BrowserAgent.click] *)
Definition click (t : float) (page : Page) (query : string)
    (a : BrowserAgent) (w : World) : result unit * World * BrowserAgent :=
  recorded_verb t "click" [("query", VStr query)]
    (Actions.click page query (retry a) (stealth a)) a w.

(** [BrowserAgent.select] *)
Definition select (t : float) (page : Page) (query value : string)
    (a : BrowserAgent) (w : World) : result unit * World * BrowserAgent :=
  recorded_verb t "select" [("query", VStr query); ("value", VStr value)]
    (Verbs.select_option page query value (retry a) (stealth a)) a w.

(** [BrowserAgent.fill_form] *)
Definition fill_form (t : float) (page : Page)
    (fields : list (string * string)) (submit : bool)
    (a : BrowserAgent) (w : World) : result unit * World * BrowserAgent :=
  recorded_verb t "fill_form"
    [("fields", VDict (map (fun kv => (fst kv, VStr (snd kv))) fields));
     ("submit", VBool submit)]
    (Forms.fill_form page fields submit (retry a) (stealth a)) a w.

(** [BrowserAgent.start_recording] *)
Definition start_recording (t : float) (a : BrowserAgent) : BrowserAgent :=
  with_recorder a (start t (_recorder a)).

(** [BrowserAgent.stop_recording] *)
Definition stop_recording (a : BrowserAgent)
    : list RecordedAction * BrowserAgent :=
  (fst (stop (_recorder a)), with_recorder a (snd (stop (_recorder a)))).

(** [BrowserAgent.save_recording], on the store. *)
Definition save_recording (name description : string) (a : BrowserAgent)
    (storage : Storage) : Storage :=
  Store.save_to (_recorder a) name storage description.

End AgentVerbs.

(* ------------------------------------------------------------------ *)
(** ** page_state.py: the whole digest *)

Module Summary.
Import PyStr Driver Extraction PageState.

(** What the driver answers about one element of a role. [None] is a
    read that raises; the summary catches it and drops the element. *)
Record RoleElement : Type := mkRoleElement {
  re_visible : option bool;
  re_inner_text : option string;
  re_attribute : string -> option (option string);
  re_input_value : option string;
  re_checked : option bool
}.

(** What [page_summary] reads from the page. *)
Record PageView : Type := mkPageView {
  meta : list (string * string);
  by_role : string -> list RoleElement;
  view_forms : list DetectedForm;
  raw_links : list (string * string);
  origin : string;
  text_content : string
}.

(** The line feed. *)
Definition nl : string := String "010"%char EmptyString.

Definition quoted (s : string) : string := (dquote ++ s ++ dquote)%string.

(** [str(n)] for a natural number. *)
Definition str_of_nat (n : nat) : string :=
  DecimalString.NilEmpty.string_of_uint (Nat.to_uint n).

(** [s.split("\n")] *)
Fixpoint split_lines (s : string) : list string :=
  match s with
  | EmptyString => [EmptyString]
  | String c s' =>
      if Ascii.eqb c "010"%char then EmptyString :: split_lines s'
      else
        match split_lines s' with
        | h :: t => String c h :: t
        | [] => [String c EmptyString]
        end
  end.

(** [await el.get_attribute(name) or ""], when the read does not raise. *)
Definition attribute_or_empty (el : RoleElement) (name : string)
    : option string :=
  match re_attribute el name with
  | None => None
  | Some (Some v) => Some v
  | Some None => Some EmptyString
  end.

(** [await el.get_attribute("placeholder") or
     await el.get_attribute("aria-label") or ""] *)
Definition placeholder_or_label (el : RoleElement) : option string :=
  match attribute_or_empty el "placeholder" with
  | None => None
  | Some EmptyString => attribute_or_empty el "aria-label"
  | Some p => Some p
  end.

(** The name of an element that is no text field: its inner text, cut at
    80 characters, or its accessible label when the text cannot be read. *)
Definition text_or_label (el : RoleElement) : option string :=
  match re_inner_text el with
  | Some t => Some (take 80 (strip t))
  | None => attribute_or_empty el "aria-label"
  end.

(** The body of the inner loop of the visible-elements step: the entry
    for one element, or nothing when the element is skipped or a read
    raises. *)
Definition element_entry (role : string) (el : RoleElement) : option string :=
  match re_visible el with
  | None | Some false => None
  | Some true =>
      let named : option string :=
        if mem role ["textbox"; "combobox"] then
          match placeholder_or_label el with
          | None => None
          | Some name =>
              match (if String.eqb role "textbox"
                     then re_input_value el else Some EmptyString) with
              | None => None
              | Some value =>
                  let entry := ("- [" ++ role ++ "] " ++ quoted name)%string in
                  Some match value with
                       | EmptyString => entry
                       | _ => (entry ++ " (value: " ++ quoted (take 50 value)
                                 ++ ")")%string
                       end
              end
          end
        else
          match text_or_label el with
          | None | Some EmptyString => None
          | Some name => Some ("- [" ++ role ++ "] " ++ quoted name)%string
          end in
      match named with
      | None => None
      | Some entry =>
          if mem role ["checkbox"; "radio"] then
            match re_checked el with
            | None => None
            | Some c =>
                Some (entry ++ " (" ++ (if c then "checked" else "unchecked")
                        ++ ")")%string
            end
          else if String.eqb role "tab" then
            match re_attribute el "aria-selected" with
            | None => None
            | Some sel =>
                Some match sel with
                     | Some v => if String.eqb v "true"
                                 then (entry ++ " (active)")%string else entry
                     | None => entry
                     end
            end
          else Some entry
      end
  end.

(** The roles of the visible-elements step, in order. *)
Definition summary_roles : list string :=
  ["button"; "link"; "textbox"; "combobox"; "checkbox"; "radio"; "tab";
   "menuitem"].

(** The entries of one role: [for i in range(min(count, max_items))]. *)
Definition role_entries (view : PageView) (max_items : Z) (role : string)
    : list string :=
  let els := by_role view role in
  let n := Z.min (Z.of_nat (List.length els)) max_items in
  flat_map (fun el => match element_entry role el with
                      | Some e => [e]
                      | None => []
                      end)
           (firstn (Z.to_nat n) els).

Section Digest.

(** [str] of a list of strings (Python's [repr] of the list). *)
Variable repr_list : list string -> string.

(** The line of one form field. *)
Definition field_line (ff : FormField) : string :=
  let req := if required ff then " *required" else "" in
  match options ff with
  | _ :: _ =>
      ("    - [" ++ field_type ff ++ "] " ++ quoted (ff_label ff)
         ++ " options: " ++ repr_list (Py.slice_to (options ff) 5) ++ req)%string
  | [] =>
      let ph := match placeholder ff with
                | EmptyString => EmptyString
                | p => (" (placeholder: " ++ quoted p ++ ")")%string
                end in
      ("    - [" ++ field_type ff ++ "] " ++ quoted (ff_label ff) ++ ph ++ req)%string
  end.

(** The lines of the form numbered [j] (from 0). *)
Definition form_lines (j : nat) (form : DetectedForm) : list string :=
  [("  Form " ++ str_of_nat (j + 1) ++ " (action: "
      ++ or_default (form_action form) "N/A" ++ ", method: "
      ++ method form ++ "):")%string]
  ++ map field_line (Py.slice_to (fields form) 10)
  ++ [("    Submit: " ++ quoted (submit_text form))%string].

(** [for j, form in enumerate(...)] *)
Fixpoint forms_loop (j : nat) (forms : list DetectedForm) : list string :=
  match forms with
  | [] => []
  | form :: rest => form_lines j form ++ forms_loop (S j) rest
  end.

(** The lines the forms step appends, with the blank line that ends it. *)
Definition forms_section (forms : list DetectedForm) : list string :=
  (match forms with
   | [] => ["FORMS: None visible"]
   | _ => "FORMS:" :: forms_loop 0 (Py.slice_to forms 3)
   end) ++ [""].

(** The lines the content step appends. *)
Definition content_section (text : string) : list string :=
  match strip text with
  | EmptyString => []
  | stripped =>
      "PAGE CONTENT (preview):"
      :: flat_map (fun line => match strip line with
                               | EmptyString => []
                               | cleaned => [("  " ++ cleaned)%string]
                               end)
                  (Py.slice_to (split_lines stripped) 8)
  end.

(** The list [lines] of [page_summary] when it returns. *)
Definition summary_lines (view : PageView) (max_items : Z) : list string :=
  [("URL: " ++ Py.get "url" "unknown" (meta view))%string;
   ("Title: " ++ Py.get "title" "untitled" (meta view))%string;
   ""; "VISIBLE ELEMENTS:"]
  ++ flat_map (role_entries view max_items) summary_roles
  ++ [""]
  ++ forms_section (view_forms view)
  ++ navigation_lines (get_links (raw_links view) (origin view)) max_items
  ++ content_section (text_content view).

(** [page_summary] *)
Definition page_summary (view : PageView) (max_items : Z) : string :=
  join nl (summary_lines view max_items).

End Digest.

End Summary.

(* ------------------------------------------------------------------ *)
(** ** Reading a trace: lookups and interactions *)

Module Observe.
Import Driver.

(** The queries of the resolution attempts of a trace, in order. *)
Definition finds_of (evs : list Event) : list string :=
  flat_map (fun e => match e with EvFind q => [q] | _ => [] end) evs.

(** An event that acts on the page: a click, a fill, a clear, a typed
    sequence, a selected option or a pressed key. Lookups and sleeps do
    not. *)
Definition is_interaction (e : Event) : bool :=
  match e with
  | EvClick _ | EvFill _ _ | EvClear _ | EvPressSequentially _ _ _
  | EvSelectOption _ _ | EvKeyboardPress _ => true
  | EvFind _ | EvCount _ | EvSleep _ | EvRandomDelay _ _ => false
  end.

(** The interactions of a trace, in order. *)
Definition interactions (evs : list Event) : list Event :=
  filter is_interaction evs.

End Observe.

(* ------------------------------------------------------------------ *)
(** ** The vocabulary of the further properties *)

Module Reading.
Import PyStr Driver Config Elements Forms.




(** The characters of a string that are no whitespace. *)
Fixpoint without_spaces (s : string) : string :=
  match s with
  | EmptyString => EmptyString
  | String c s' =>
      if is_space c then without_spaces s' else String c (without_spaces s')
  end.

(** [s.split()]: the maximal runs of characters that are no whitespace,
    in order. *)
Fixpoint words (s : string) : list string :=
  match s with
  | EmptyString => []
  | String c s' =>
      if is_space c then words s'
      else match s' with
           | EmptyString => [String c EmptyString]
           | String d _ =>
               if is_space d then String c EmptyString :: words s'
               else match words s' with
                    | w :: ws => String c w :: ws
                    | [] => [String c EmptyString]
                    end
           end
  end.

(** An outcome with its value dropped. *)
Definition drop_value {A : Type} (r : result A) : result unit :=
  match r with
  | Ok _ => Ok tt
  | Raise e => Raise e
  end.

(** Pacing that cannot draw its delay: enabled, with a lower bound above
    the upper one. *)
Definition pacing_raises (stealth : StealthConfig) : bool :=
  enabled stealth && (random_delay_max_ms stealth <? random_delay_min_ms stealth)%Z.




End Reading.

(* ------------------------------------------------------------------ *)
(** ** More concrete inputs *)

Module Samples.
Import Driver Config.

(** A page with two buttons and a link, on which nothing matches the
    query [Pay now]. *)
Definition shop_page : Page :=
  fun _ =>
    mkSnapshot
      (fun loc =>
         match loc with
         | ByRole r None =>
             if String.eqb r "button"
             then [mkElement 1 "button" "  Add to cart " None false;
                   mkElement 2 "button" "Checkout" None false]
             else if String.eqb r "link"
             then [mkElement 3 "a" "Home" None false]
             else []
         | _ => []
         end)
      [].




(** A sign-up form: the checkbox labelled Subscribe, unchecked, and a
    button Sign up, which the form detection reports as the submit
    text. *)
Definition signup_page : Page :=
  fun _ =>
    mkSnapshot
      (fun loc =>
         match loc with
         | ByLabel q =>
             if String.eqb q "Subscribe" then [Fixtures.subscribe_box false]
             else []
         | ByRole r (Some q) =>
             if andb (String.eqb r "button") (String.eqb q "Sign up")
             then [mkElement 4 "button" "Sign up" None false]
             else []
         | _ => []
         end)
      [mkDetectedForm "/signup" "post" [] "Sign up"].

(** Pacing whose bounds are the wrong way round. *)
Definition broken_pacing : StealthConfig :=
  mkStealthConfig true 2000 500 true 3 false 50 150.

(** A started agent with the default policies, recording since instant
    10. *)
Definition recording_agent : AgentVerbs.BrowserAgent :=
  AgentVerbs.mkBrowserAgent true
    (Recorder.start 10%float Recorder.init) default_retry Fixtures.no_stealth.

End Samples.

(* ================================================================== *)
(** * Properties *)

(* ------------------------------------------------------------------ *)
(** ** The recorder *)

Section RecorderFacts.
Import Py Recorder.

Lemma record_recording (r : ActionRecorder) (c : float * string * Dict) :
  _recording r = true ->
  record (fst (fst c)) (snd (fst c)) (snd c) r =
  mkActionRecorder true (_actions r ++ [recorded_of (_start_time r) c])
    (_start_time r).
Proof.
  intros Hrec. unfold record, recorded_of. rewrite Hrec. reflexivity.
Qed.

Lemma record_all_recording (calls : list (float * string * Dict)) :
  forall r, _recording r = true ->
  record_all calls r =
  mkActionRecorder true
    (_actions r ++ map (recorded_of (_start_time r)) calls) (_start_time r).
Proof.
  induction calls as [|c calls IH]; intros r Hrec.
  - simpl. rewrite app_nil_r. destruct r as [b l t]. simpl in *. now subst b.
  - unfold record_all in *. simpl fold_left.
    rewrite (record_recording r c Hrec).
    rewrite IH by reflexivity. simpl. now rewrite <- app_assoc.
Qed.

(** C9. Rebuilding a recorded action from its dictionary gives the action
    back: name, arguments and timestamp offset are unchanged. *)
Theorem from_dict_to_dict (a : RecordedAction) :
  from_dict (to_dict a) = Ok a.
Proof.
  destruct a as [name kw ts]. reflexivity.
Qed.

(** C10. While no recording session is active, [record] changes nothing:
    the buffer, the recording flag and the time origin stay as they were. *)
Theorem record_when_idle (r : ActionRecorder) (now : float) (name : string)
    (kwargs : Dict) :
  is_recording r = false ->
  record now name kwargs r = r /\
  _actions (record now name kwargs r) = _actions r /\
  _recording (record now name kwargs r) = _recording r /\
  _start_time (record now name kwargs r) = _start_time r.
Proof.
  unfold is_recording. intros Hidle.
  assert (Hsame : record now name kwargs r = r).
  { unfold record. rewrite Hidle. reflexivity. }
  rewrite Hsame. repeat split.
Qed.

Lemma record_when_idle_witness :
  is_recording init = false /\
  record 5%float "click" [("query", VStr "Submit")] init = init.
Proof.
  split; [reflexivity|].
  apply (record_when_idle init 5%float "click" [("query", VStr "Submit")]).
  reflexivity.
Defined.

(** C3, as stated, fails: after one recorded click, [stop] returns the
    click and the buffer still holds it. *)
Lemma stop_leaves_buffer :
  let r := record 2%float "click" [("query", VStr "Submit")] (start 1%float init) in
  fst (stop r) <> [] /\ _actions (snd (stop r)) <> [].
Proof.
  vm_compute. split; discriminate.
Qed.

(** C3, amended. [start] empties the buffer, sets the time origin to the
    current time and turns recording on; [stop] returns the actions
    recorded since, in order, turns recording off, and leaves the buffer
    and the time origin as they are. *)
Theorem recording_session (r : ActionRecorder) (t0 : float)
    (calls : list (float * string * Dict)) :
  let r0 := start t0 r in
  let r1 := record_all calls r0 in
  (_actions r0 = [] /\ _start_time r0 = t0 /\ _recording r0 = true) /\
  fst (stop r1) = map (recorded_of t0) calls /\
  _actions (snd (stop r1)) = map (recorded_of t0) calls /\
  _recording (snd (stop r1)) = false /\
  _start_time (snd (stop r1)) = t0.
Proof.
  intros r0 r1. split; [repeat split|].
  subst r1. rewrite (record_all_recording calls r0) by reflexivity.
  simpl. repeat split.
Qed.

End RecorderFacts.

(* ------------------------------------------------------------------ *)
(** ** Strings *)

Section StringFacts.
Import PyStr.

Lemma prefix_app (p s : string) :
  String.prefix p s = true <-> exists r, s = (p ++ r)%string.
Proof.
  revert s. induction p as [|c p IH]; intros s.
  - split; [intros _; now exists s | intros _; now destruct s].
  - destruct s as [|d s]; simpl.
    + split; [discriminate | intros [r Hr]; discriminate].
    + destruct (Ascii.ascii_dec c d) as [->|Hne].
      * rewrite IH. split; intros [r Hr]; exists r.
        -- now rewrite Hr.
        -- now injection Hr.
      * split; [discriminate|].
        intros [r Hr]. injection Hr as Hd _. congruence.
Qed.

Lemma contains_nil (sub : string) :
  contains sub EmptyString = String.prefix sub EmptyString.
Proof. unfold contains. apply orb_false_r. Qed.

Lemma contains_cons (sub : string) (c : ascii) (s : string) :
  contains sub (String c s) = String.prefix sub (String c s) || contains sub s.
Proof. reflexivity. Qed.

Lemma contains_app (sub s : string) :
  contains sub s = true <-> exists a b, s = (a ++ sub ++ b)%string.
Proof.
  induction s as [|c s IH].
  - rewrite contains_nil, prefix_app. split.
    + intros [r Hr]. now exists EmptyString, r.
    + intros [a [b Hab]]. destruct a as [|x a]; [now exists b | discriminate].
  - rewrite contains_cons, orb_true_iff, IH, prefix_app. split.
    + intros [[r Hr] | [a [b Hab]]].
      * now exists EmptyString, r.
      * exists (String c a), b. simpl. now rewrite Hab.
    + intros [a [b Hab]]. destruct a as [|x a].
      * left. now exists b.
      * right. exists a, b. simpl in Hab. now injection Hab.
Qed.



Lemma take_length (n : nat) (s : string) : String.length (take n s) <= n.
Proof.
  revert s. induction n as [|n IH]; intros [|c s]; simpl; try lia.
  specialize (IH s). lia.
Qed.

End StringFacts.

(* ------------------------------------------------------------------ *)
(** ** The resolver *)

Section ResolverFacts.
Import Driver Config Elements Chain.

Lemma first_success_app (snap : Locator -> list Element) (q : string)
    (c1 c2 : list Strategy) :
  first_success snap q (c1 ++ c2) =
  match first_success snap q c1 with
  | (tried, Some hit) => (tried, Some hit)
  | (tried, None) =>
      (tried ++ fst (first_success snap q c2), snd (first_success snap q c2))
  end.
Proof.
  induction c1 as [|s c1 IH]; simpl.
  - now destruct (first_success snap q c2).
  - destruct (snap (locator_of q s)); [|reflexivity].
    rewrite IH. destruct (first_success snap q c1) as [tried [hit|]]; reflexivity.
Qed.

Lemma find_by_role_run (roles : list string) (page : Page) (q : string) :
  forall w,
  exists res,
    find_by_role page q roles w =
    (Ok res,
     mkWorld (now w)
       (trace w ++ probe_events q
          (fst (first_success (matches (page (now w))) q (map RoleMatch roles)))))
    /\ match snd (first_success (matches (page (now w))) q (map RoleMatch roles)) with
       | Some (s, e) =>
           exists d, res = Some d /\ locator d = e /\ role d = strategy_role s
       | None => res = None
       end.
Proof.
  induction roles as [|r roles IH]; intros w.
  - exists None. simpl. unfold ret. rewrite app_nil_r. now destruct w.
  - simpl. unfold bind, query_all. simpl.
    destruct (matches (page (now w)) (ByRole r (Some q))) as [|e els].
    + destruct (IH (mkWorld (now w) (trace w ++ [EvCount (ByRole r (Some q))])))
        as [res [Hrun Hres]].
      simpl in Hrun, Hres. exists res. rewrite Hrun.
      destruct (first_success (matches (page (now w))) q (map RoleMatch roles))
        as [tried hit].
      simpl in *. rewrite <- app_assoc. split; [reflexivity | exact Hres].
    + eexists. split; [reflexivity|]. simpl. eexists. repeat split.
Qed.

Lemma available_loop_run (roles : list string) (page : Page) (limit : Z) :
  forall items w,
  exists avail extra,
    available_loop page limit roles items w =
    (Ok avail, mkWorld (now w) (trace w ++ extra))
    /\ Forall is_role_scan extra.
Proof.
  induction roles as [|r roles IH]; intros items w.
  - exists items, []. simpl. unfold ret. rewrite app_nil_r.
    split; [now destruct w | constructor].
  - simpl. unfold bind, query_all. simpl.
    match goal with |- context [if ?c then _ else _] => destruct c end.
    + eexists. exists [EvCount (ByRole r None)]. split; [reflexivity|].
      repeat constructor. now exists r.
    + match goal with |- context [available_loop _ _ _ ?i ?w'] =>
        destruct (IH i w') as [avail [extra [Hrun Hextra]]] end.
      simpl in Hrun. exists avail, (EvCount (ByRole r None) :: extra).
      rewrite Hrun. rewrite <- app_assoc. split; [reflexivity|].
      constructor; [now exists r | exact Hextra].
Qed.

Lemma get_available_run (page : Page) (limit : Z) (w : World) :
  exists avail extra,
    _get_available_interactive page limit w =
    (Ok avail, mkWorld (now w) (trace w ++ extra))
    /\ Forall is_role_scan extra.
Proof.
  unfold _get_available_interactive, bind.
  destruct (available_loop_run available_roles page limit [] w)
    as [avail [extra [Hrun Hextra]]].
  rewrite Hrun. unfold ret. eexists. exists extra. split; [reflexivity | exact Hextra].
Qed.

(** A strategy matched: the descriptor is built and nothing else is
    probed. *)
Ltac resolved :=
  intros _; eexists; exists [];
  split; [ rewrite <- ?app_assoc; reflexivity
         | split; [ constructor
                  | split; [ reflexivity
                           | eexists; repeat split; cbn [text];
                             try match goal with
                                 | |- context [if ?c then _ else _] => destruct c
                                 end;
                             first [ apply take_length | cbn; lia ] ] ] ].

(** No strategy matched: the suggestions are collected and the error is
    raised. *)
Ltac unresolved :=
  let Havail := fresh "Havail" in
  intros Havail; rewrite <- !app_assoc; cbn [app];
  rewrite <- app_assoc in Havail; cbn [app] in Havail; rewrite Havail;
  eexists; eexists;
  split; [ reflexivity
         | split; [ eassumption
                  | split; [ reflexivity | eexists; reflexivity ] ] ].

(** What one run of [find_element] does: it logs its entry, probes the
    strategies of the chain up to the first that matches, and either
    builds the descriptor from that first match, with a text of at most
    100 characters, or scans the roles for suggestions and raises. Time
    does not pass. *)
Lemma find_element_run (page : Page) (q : string) (cfg : option RetryConfig)
    (w : World) :
  exists r extra,
    find_element page q cfg w =
    (r, mkWorld (now w)
          (trace w ++ EvFind q ::
             probe_events q
               (fst (first_success (matches (page (now w))) q (strategy_chain q)))
             ++ extra))
    /\ Forall is_role_scan extra
    /\ match snd (first_success (matches (page (now w))) q (strategy_chain q)) with
       | Some (s, e) =>
           extra = [] /\
           exists d, r = Ok d /\ locator d = e /\ role d = strategy_role s
                     /\ String.length (text d) <= 100
       | None =>
           fst (first_success (matches (page (now w))) q (strategy_chain q))
           = strategy_chain q
           /\ exists avail, r = Raise (ElementNotFoundError q avail)
       end.
Proof.
  destruct (get_available_run page 15
              (mkWorld (now w)
                 (trace w ++ EvFind q ::
                    probe_events q (strategy_chain q))))
    as [avail [extra [Havail Hextra]]].
  revert Havail.
  unfold find_element, strategy_chain, find_roles, probe_events.
  destruct (_looks_like_selector q);
    cbn [first_success app map locator_of find_by_role];
    unfold bind, emit, query_all, ret, raise; cbn [now trace];
    repeat
      (match goal with
       | |- context [match matches (page (now w)) ?l with _ => _ end] =>
           destruct (matches (page (now w)) l);
           cbn [now trace fst snd app map];
           [ | resolved ]
       end);
    unresolved.
Qed.


End ResolverFacts.

(* ------------------------------------------------------------------ *)
(** ** Display text of a resolved element *)

Section DisplayText.
Import Driver Config Elements Fixtures.

(** C7. On a page whose only match is a textarea found by its text, the
    free-text step returns the textarea with its content as display text:
    the text is within 100 characters but it is not empty, although the
    tag is an input-like one. The role step reads the text in the same
    unguarded way. *)
Theorem find_element_textarea_text :
  fst (find_element textarea_page "Draft" None w0) =
    Ok (mkFoundElement draft_textarea "textarea" "Draft notes" None None)
  /\ PyStr.mem "textarea" input_tags = true
  /\ String.length "Draft notes" <= 100.
Proof.
  split; [vm_compute; reflexivity|]. split; [reflexivity | simpl; lia].
Qed.

End DisplayText.

(* ------------------------------------------------------------------ *)
(** ** Retrying a resolution *)

Section RetryFacts.
Import Driver Config Elements Actions Chain Trace.

Lemma probes_silent (q : string) (tried : list Strategy) :
  attempts_and_sleeps (probe_events q tried) = [].
Proof.
  induction tried as [|s tried IH]; [reflexivity | exact IH].
Qed.

Lemma role_scans_silent (extra : list Event) :
  Forall is_role_scan extra -> attempts_and_sleeps extra = [].
Proof.
  induction 1 as [|e extra [r ->] _ IH]; [reflexivity | exact IH].
Qed.

(** One attempt: it shows in the trace as one [EvFind] and no sleep, it
    takes no time, and it ends with a descriptor or with NotFound. *)
Lemma find_element_attempt (page : Page) (q : string)
    (cfg : option RetryConfig) (t : nat) (tr : list Event) :
  exists r evs,
    find_element page q cfg (mkWorld t tr) = (r, mkWorld t (tr ++ evs))
    /\ attempts_and_sleeps evs = [EvFind q]
    /\ ((exists d, r = Ok d) \/ (exists avail, r = Raise (ElementNotFoundError q avail))).
Proof.
  destruct (find_element_run page q cfg (mkWorld t tr))
    as [r [extra [Hrun [Hextra Hres]]]].
  cbn [now trace] in *. exists r. eexists. split; [exact Hrun|]. split.
  - unfold attempts_and_sleeps. cbn [filter is_attempt_or_sleep].
    rewrite filter_app. fold (attempts_and_sleeps extra).
    match goal with |- context [filter _ (probe_events ?a ?b)] =>
      fold (attempts_and_sleeps (probe_events a b)) end.
    now rewrite probes_silent, role_scans_silent.
  - destruct (snd (first_success _ _ _)) as [[s e]|].
    + destruct Hres as [_ [d [Hr _]]]. left. now exists d.
    + destruct Hres as [_ [avail Hr]]. right. now exists avail.
Qed.

(** The shape of a retried run read two ways: the number of attempts
    and the delays slept. *)
Lemma retry_shape_counts (q : string) (ms : Z) (n : nat) :
  count_attempts (retry_shape q ms n) = n
  /\ sleeps_of (retry_shape q ms n) = repeat ms (n - 1).
Proof.
  unfold count_attempts, sleeps_of.
  induction n as [|[|n] IH]; [split; reflexivity | split; reflexivity |].
  destruct IH as [IH1 IH2].
  change (retry_shape q ms (S (S n)))
    with (EvFind q :: EvSleep ms :: retry_shape q ms (S n)).
  cbn [filter flat_map List.length app]. rewrite IH1, IH2.
  split; [reflexivity|]. simpl. now rewrite Nat.sub_0_r.
Qed.

Lemma counts_of_attempts_and_sleeps (evs : list Event) :
  count_attempts (attempts_and_sleeps evs) = count_attempts evs
  /\ sleeps_of (attempts_and_sleeps evs) = sleeps_of evs.
Proof.
  unfold count_attempts, sleeps_of, attempts_and_sleeps.
  induction evs as [|e evs [IH1 IH2]]; [split; reflexivity|].
  destruct e; cbn [filter is_attempt_or_sleep flat_map List.length app];
    rewrite ?IH1, ?IH2; split; reflexivity.
Qed.

(** One turn of the loop of [_with_retry], by the outcome of its attempt. *)
Lemma retry_loop_cons (page : Page) (q : string) (cfg : RetryConfig)
    (attempt : Z) (rest : list Z) (last : option Exn) (w w1 : World)
    (r : result FoundElement) :
  find_element page q (Some cfg) w = (r, w1) ->
  retry_loop page q cfg (attempt :: rest) last w =
  match r with
  | Ok found => (Ok found, w1)
  | Raise (ElementNotFoundError q' avail) =>
      retry_loop page q cfg rest (Some (ElementNotFoundError q' avail))
        (if (attempt <? max_retries cfg - 1)%Z
         then mkWorld (S (now w1)) (trace w1 ++ [EvSleep (retry_delay_ms cfg)])
         else w1)
  | Raise e => (Raise e, w1)
  end.
Proof.
  intros Hrun. cbn [retry_loop]. unfold bind at 1, try. rewrite Hrun.
  destruct r as [found|[q' avail| | | | | |]]; try reflexivity.
  unfold bind. destruct (attempt <? max_retries cfg - 1)%Z; reflexivity.
Qed.

(** The loop on its last [S m] attempts, when the first [m] of them end
    in NotFound: it makes them all, sleeps between two consecutive ones,
    and ends as the last attempt does. *)
Lemma retry_loop_run (page : Page) (q : string) (cfg : RetryConfig) (m : nat) :
  forall (i : nat) (last : option Exn) (t : nat) (tr : list Event),
  max_retries cfg = Z.of_nat (i + S m) ->
  (forall k tr', k < m ->
     exists avail,
       fst (find_element page q (Some cfg) (mkWorld (t + k) tr'))
       = Raise (ElementNotFoundError q avail)) ->
  exists tr_last evs,
    retry_loop page q cfg (map Z.of_nat (seq i (S m))) last (mkWorld t tr) =
    (fst (find_element page q (Some cfg) (mkWorld (t + m) tr_last)),
     mkWorld (t + m) (tr ++ evs))
    /\ attempts_and_sleeps evs = retry_shape q (retry_delay_ms cfg) (S m).
Proof.
  induction m as [|m IH]; intros i last t tr Hmax Hfail.
  - destruct (find_element_attempt page q (Some cfg) t tr)
      as [r [evs [Hrun [Hevs Hr]]]].
    exists tr, evs. rewrite Nat.add_0_r. cbn [seq map].
    rewrite (retry_loop_cons _ _ _ _ _ _ _ _ _ Hrun), Hrun. cbn [fst].
    split; [|exact Hevs].
    destruct Hr as [[d ->] | [avail ->]]; [reflexivity|].
    replace (Z.of_nat i <? max_retries cfg - 1)%Z with false
      by (symmetry; apply Z.ltb_ge; lia).
    reflexivity.
  - destruct (find_element_attempt page q (Some cfg) t tr)
      as [r [evs [Hrun [Hevs _]]]].
    destruct (Hfail 0 tr) as [avail Hfirst]; [lia|].
    rewrite Nat.add_0_r, Hrun in Hfirst. cbn [fst] in Hfirst. subst r.
    change (seq i (S (S m))) with (i :: seq (S i) (S m)). cbn [map].
    rewrite (retry_loop_cons _ _ _ _ _ _ _ _ _ Hrun).
    replace (Z.of_nat i <? max_retries cfg - 1)%Z with true
      by (symmetry; apply Z.ltb_lt; lia).
    cbn [now trace].
    destruct (IH (S i) (Some (ElementNotFoundError q avail)) (S t)
                ((tr ++ evs) ++ [EvSleep (retry_delay_ms cfg)]))
      as [tr_last [evs' [Hloop Hshape]]].
    + rewrite Hmax. f_equal. lia.
    + intros k tr' Hk. replace (S t + k) with (t + S k) by lia.
      apply Hfail. lia.
    + exists tr_last, (evs ++ EvSleep (retry_delay_ms cfg) :: evs').
      rewrite Hloop. replace (S t + m) with (t + S m) by lia.
      split.
      * f_equal. f_equal. rewrite <- !app_assoc. reflexivity.
      * unfold attempts_and_sleeps in *. rewrite filter_app, Hevs.
        cbn [filter is_attempt_or_sleep app]. now rewrite Hshape.
Qed.

(** C1. With [maxAttempts = N >= 1] and the first [N - 1] attempts ending
    in NotFound, [_with_retry] makes exactly [N] attempts, with exactly
    [N - 1] sleeps of the configured delay, one between each two
    consecutive attempts. If the last attempt ends in NotFound too, that
    error is re-raised as it is; if the last attempt finds a descriptor,
    it is returned. *)
Theorem with_retry_attempts (page : Page) (q : string) (cfg : RetryConfig)
    (w : World) (N : nat) :
  max_retries cfg = Z.of_nat N ->
  1 <= N ->
  (forall k tr, k < N - 1 ->
     exists avail,
       attempt page q cfg (now w + k) tr = Raise (ElementNotFoundError q avail)) ->
  exists w' evs,
    trace w' = trace w ++ evs /\
    attempts_and_sleeps evs = retry_shape q (retry_delay_ms cfg) N /\
    count_attempts evs = N /\
    sleeps_of evs = repeat (retry_delay_ms cfg) (N - 1) /\
    ((forall tr, exists avail,
        attempt page q cfg (now w + (N - 1)) tr
        = Raise (ElementNotFoundError q avail)) ->
     exists tr_last avail,
       attempt page q cfg (now w + (N - 1)) tr_last
       = Raise (ElementNotFoundError q avail)
       /\ _with_retry page q cfg w = (Raise (ElementNotFoundError q avail), w')) /\
    (forall d,
       (forall tr, attempt page q cfg (now w + (N - 1)) tr = Ok d) ->
       _with_retry page q cfg w = (Ok d, w')).
Proof.
  intros Hmax HN Hfail. destruct N as [|m]; [lia|].
  replace (S m - 1) with m in * by lia.
  destruct w as [t tr]. cbn [now trace] in *.
  destruct (retry_loop_run page q cfg m 0 None t tr Hmax Hfail)
    as [tr_last [evs [Hloop Hshape]]].
  assert (Hrun : _with_retry page q cfg (mkWorld t tr) =
                 (attempt page q cfg (t + m) tr_last, mkWorld (t + m) (tr ++ evs))).
  { unfold _with_retry, Py.range, attempt. rewrite Hmax, Nat2Z.id. exact Hloop. }
  exists (mkWorld (t + m) (tr ++ evs)), evs. cbn [trace].
  destruct (counts_of_attempts_and_sleeps evs) as [Hc Hs].
  destruct (retry_shape_counts q (retry_delay_ms cfg) (S m)) as [Hc' Hs'].
  rewrite Hshape in Hc, Hs. rewrite Hc' in Hc. rewrite Hs' in Hs.
  replace (S m - 1) with m in Hs by lia.
  repeat split; auto.
  - intros Hlast. destruct (Hlast tr_last) as [avail Hav].
    exists tr_last, avail. split; [exact Hav|]. now rewrite Hrun, Hav.
  - intros d Hlast. now rewrite Hrun, Hlast.
Qed.

(** The field labelled Email appears at the third instant; with the
    default policy (3 attempts, 1000 ms) the first two attempts fail and
    the third returns the field. *)
Lemma with_retry_attempts_witness :
  exists w' evs,
    trace w' = trace Fixtures.w0 ++ evs /\
    attempts_and_sleeps evs = retry_shape "Email" 1000 3 /\
    count_attempts evs = 3 /\
    sleeps_of evs = repeat 1000%Z 2 /\
    _with_retry Fixtures.later_email_page "Email" default_retry Fixtures.w0
    = (Ok (mkFoundElement Fixtures.email_input "input" "" None (Some "Email")), w').
Proof.
  destruct (with_retry_attempts Fixtures.later_email_page "Email"
              default_retry Fixtures.w0 3)
    as [w' [evs [Htr [Hshape [Hcount [Hsleeps [_ Hok]]]]]]].
  - reflexivity.
  - lia.
  - intros k tr Hk.
    destruct k as [|[|k]]; [exists []; vm_compute; reflexivity .. | lia].
  - exists w', evs. repeat split; try assumption.
    apply Hok. intros tr. vm_compute. reflexivity.
Defined.

End RetryFacts.

(* ------------------------------------------------------------------ *)
(** ** Filling a form *)

Section FormFacts.
Import Driver Config Elements Actions Forms Trace Fixtures.

(** C5. [fill_form] hands the retry policy to [find_element], which does
    not use it: on a page where the Email field is attached one instant
    late, filling it under the default policy (3 attempts, 1000 ms) makes
    a single attempt, sleeps never and raises NotFound, while the retry
    orchestrator under the same policy, on the same page, sleeps once and
    returns the field. *)
Theorem fill_form_single_attempt :
  let run :=
    fill_form late_email_page [("Email", "a@b.c")] false default_retry
      no_stealth w0 in
  let retried := _with_retry late_email_page "Email" default_retry w0 in
  fst run = Raise (ElementNotFoundError "Email" []) /\
  count_attempts (trace (snd run)) = 1 /\
  sleeps_of (trace (snd run)) = [] /\
  fst retried = Ok (mkFoundElement email_input "input" "" None (Some "Email")) /\
  count_attempts (trace (snd retried)) = 2 /\
  sleeps_of (trace (snd retried)) = [1000%Z].
Proof.
  vm_compute. repeat split.
Qed.

Lemma should_check_iff (value : string) :
  should_check value = true <->
  In (PyStr.lower value) ["true"; "yes"; "1"; "on"].
Proof.
  unfold should_check, PyStr.mem, truthy. rewrite existsb_exists. split.
  - intros [x [Hin Heq]]. apply String.eqb_eq in Heq. now subst x.
  - intros Hin. exists (PyStr.lower value). split; [exact Hin|].
    apply String.eqb_refl.
Qed.

Lemma not_select (tag : string) :
  PyStr.mem tag ["input"; "textarea"] = true -> String.eqb tag "select" = false.
Proof.
  unfold PyStr.mem. cbn [existsb]. rewrite orb_false_r, orb_true_iff.
  rewrite !String.eqb_eq. intros [-> | ->]; reflexivity.
Qed.

Lemma fill_fields_app (page : Page) (pre post : list (string * string))
    (retry : RetryConfig) (stealth : StealthConfig) :
  forall w,
  fill_fields page (pre ++ post) retry stealth w =
  match fill_fields page pre retry stealth w with
  | (Ok _, w1) => fill_fields page post retry stealth w1
  | (Raise e, w1) => (Raise e, w1)
  end.
Proof.
  induction pre as [|[l v] pre IH]; intros w; [reflexivity|].
  cbn [app fill_fields]. unfold bind.
  destruct (fill_field page l v retry stealth w) as [[[]|e] w1];
    [apply IH | reflexivity].
Qed.

(** The run of [fill_form] through one pair of its mapping: once the
    pairs before it are handled, the pair is handled and the run goes on
    with the pairs after it, or ends with the error of the pair. *)
Lemma fill_form_through (page : Page) (pre post : list (string * string))
    (label value : string) (submit : bool) (retry : RetryConfig)
    (stealth : StealthConfig) (w0 w : World) :
  fill_fields page pre retry stealth w0 = (Ok tt, w) ->
  fill_form page (pre ++ (label, value) :: post) submit retry stealth w0 =
  match fill_field page label value retry stealth w with
  | (Ok _, w2) => fill_form page post submit retry stealth w2
  | (Raise e, w2) => (Raise e, w2)
  end.
Proof.
  intros Hpre. unfold fill_form, bind at 1.
  rewrite fill_fields_app, Hpre. cbn [fill_fields]. unfold bind at 1.
  destruct (fill_field page label value retry stealth w) as [[[]|e] w2];
    reflexivity.
Qed.

(** C6. When [fill_form], having handled the pairs before it, comes to a
    pair whose label resolves to a checkbox, the value is truthy exactly
    when its lowercase form is one of [true], [yes], [1], [on], and the
    checkbox is clicked once when that differs from its checked state and
    not at all when it agrees: unchecked with [yes] and checked with
    [false] give one click, checked with [yes] gives none. The run of
    [fill_form] then goes on with the pairs after it; the handling ends
    well unless the pacing pause that follows cannot draw its delay. *)
Theorem checkbox_fill (page : Page) (pre post : list (string * string))
    (label value : string) (submit : bool)
    (retry : RetryConfig) (stealth : StealthConfig) (w0 w w1 : World)
    (el : FoundElement) :
  fill_fields page pre retry stealth w0 = (Ok tt, w) ->
  find_element page label (Some retry) w = (Ok el, w1) ->
  PyStr.mem (tag el) ["input"; "textarea"] = true ->
  type_attr (locator el) = Some "checkbox" ->
  let box := locator el in
  exists r2 w2 evs,
    fill_form page (pre ++ (label, value) :: post) submit retry stealth w0 =
      match r2 with
      | Ok _ => fill_form page post submit retry stealth w2
      | Raise e => (Raise e, w2)
      end /\
    (post = [] -> submit = false ->
     fill_form page (pre ++ [(label, value)]) false retry stealth w0 = (r2, w2)) /\
    trace w2 = trace w1 ++ evs /\
    (should_check value = true <->
     In (PyStr.lower value) ["true"; "yes"; "1"; "on"]) /\
    clicks_of evs =
      (if Bool.eqb (is_checked box) (should_check value)
       then [] else [handle box]) /\
    (is_checked box = false -> value = "yes" -> clicks_of evs = [handle box]) /\
    (is_checked box = true -> value = "false" -> clicks_of evs = [handle box]) /\
    (is_checked box = true -> value = "yes" -> clicks_of evs = []) /\
    (r2 = Ok tt \/
     r2 = Raise ValueError /\ enabled stealth = true /\
     (random_delay_max_ms stealth < random_delay_min_ms stealth)%Z) /\
    (enabled stealth = false \/
     (random_delay_min_ms stealth <= random_delay_max_ms stealth)%Z ->
     r2 = Ok tt).
Proof.
  intros Hpre Hfind Htag Htype box.
  assert (Hrun : exists r2 w2 evs,
            fill_field page label value retry stealth w = (r2, w2) /\
            trace w2 = trace w1 ++ evs /\
            clicks_of evs =
              (if Bool.eqb (is_checked box) (should_check value)
               then [] else [handle box]) /\
            (r2 = Ok tt \/
             r2 = Raise ValueError /\ enabled stealth = true /\
             (random_delay_max_ms stealth < random_delay_min_ms stealth)%Z) /\
            (enabled stealth = false \/
             (random_delay_min_ms stealth <= random_delay_max_ms stealth)%Z ->
             r2 = Ok tt)).
  { unfold fill_field, bind at 1. rewrite Hfind.
    rewrite (not_select _ Htag), Htag. unfold input_type_of.
    rewrite Htype. cbn [PyStr.or_default String.eqb Ascii.eqb Bool.eqb].
    fold box. unfold bind, Stealth.random_delay, emit, emit_tick, ret, raise.
    destruct (Bool.eqb (is_checked box) (should_check value));
      destruct (enabled stealth); cbn [negb now trace];
      try destruct (Z.ltb_spec (random_delay_max_ms stealth)
                               (random_delay_min_ms stealth));
      eexists; eexists; eexists;
      (split; [reflexivity|]); cbn [trace];
      (split; [ rewrite <- ?app_assoc; try reflexivity;
                symmetry; apply app_nil_r |]);
      (split; [reflexivity|]);
      (split; [ try (left; reflexivity); right; auto |]);
      intros [Hoff | Hle]; try reflexivity; try discriminate; lia. }
  destruct Hrun as [r2 [w2 [evs [Hrun [Htrace [Hclicks [Hr2 Hok]]]]]]].
  exists r2, w2, evs.
  pose proof (fill_form_through page pre post label value submit retry stealth
                w0 w Hpre) as Hthrough.
  rewrite Hrun in Hthrough.
  split.
  { rewrite Hthrough. destruct r2 as [[]|e]; reflexivity. }
  split.
  { intros _ _.
    rewrite (fill_form_through page pre [] label value false retry stealth
               w0 w Hpre), Hrun.
    destruct r2 as [[]|e]; reflexivity. }
  split; [exact Htrace|].
  split; [apply should_check_iff|]. split; [exact Hclicks|].
  rewrite Hclicks. repeat split; try (intros -> ->; reflexivity); assumption.
Qed.

Lemma checkbox_fill_witness :
  exists r2 w2 evs,
    fill_form (subscribe_page false) ([] ++ [("Subscribe", "YES")]) false
      default_retry no_stealth w0 = (r2, w2) /\
    trace w2 =
      trace (snd (find_element (subscribe_page false) "Subscribe"
                    (Some default_retry) w0)) ++ evs /\
    clicks_of evs = [3] /\
    r2 = Ok tt.
Proof.
  destruct (checkbox_fill (subscribe_page false) [] [] "Subscribe" "YES" false
              default_retry no_stealth w0 w0
              (snd (find_element (subscribe_page false) "Subscribe"
                      (Some default_retry) w0))
              (mkFoundElement (subscribe_box false) "input" "" None
                 (Some "Subscribe")))
    as [r2 [w2 [evs [_ [Hrun [Htrace [_ [Hclicks [_ [_ [_ [_ Hok]]]]]]]]]]]].
  - reflexivity.
  - vm_compute. reflexivity.
  - reflexivity.
  - reflexivity.
  - exists r2, w2, evs. split; [now apply Hrun|]. split; [exact Htrace|].
    split; [exact Hclicks|]. apply Hok. left. reflexivity.
Defined.

End FormFacts.

(* ------------------------------------------------------------------ *)
(** ** The navigation line of the digest *)

Section DigestFacts.
Import PyStr Extraction PageState Fixtures Reading.







End DigestFacts.

(* ------------------------------------------------------------------ *)
(** ** Replay *)

Section ReplayFacts.
Import Py Recorder Agent Fixtures.

Variable inherited : string -> option Attr.
Variable call_outcome : list Call -> Call -> option Exn.
Variable getter_outcome : list Call -> string -> option Exn.



End ReplayFacts.

Section ReplayRuns.
Import Py Recorder Agent Fixtures.



End ReplayRuns.

(* ================================================================== *)
(** * Further properties of the code *)

(* ------------------------------------------------------------------ *)
(** ** The resolver: what it returns and what it reports *)

Section ResolverMore.
Import Driver Config Elements Chain PyStr.

Lemma first_success_hit (snap : Locator -> list Element) (q : string)
    (chain : list Strategy) (s : Strategy) (e : Element) :
  snd (first_success snap q chain) = Some (s, e) ->
  In s chain /\ hd_error (snap (locator_of q s)) = Some e.
Proof.
  induction chain as [|s0 chain IH]; simpl; [discriminate|].
  destruct (snap (locator_of q s0)) as [|e0 els] eqn:Hs0.
  - destruct (first_success snap q chain) as [tried hit]. simpl in *.
    intros Hhit. destruct (IH Hhit) as [Hin Hhd]. auto.
  - simpl. intros Hhit. injection Hhit as <- <-. rewrite Hs0. auto.
Qed.

Lemma first_success_miss (snap : Locator -> list Element) (q : string)
    (chain : list Strategy) :
  snd (first_success snap q chain) = None <->
  forall s, In s chain -> snap (locator_of q s) = [].
Proof.
  induction chain as [|s0 chain IH]; simpl.
  - split; [intros _ s [] | reflexivity].
  - destruct (snap (locator_of q s0)) as [|e0 els] eqn:Hs0.
    + destruct (first_success snap q chain) as [tried hit]. simpl in *.
      rewrite IH. split.
      * intros Hall s [<- | Hin]; auto.
      * intros Hall s Hin. apply Hall. now right.
    + simpl. split; [discriminate|].
      intros Hall. specialize (Hall s0 (or_introl eq_refl)). congruence.
Qed.

(** X1. A descriptor is returned exactly when some strategy of the chain has
    a match on the current snapshot, and it is then built on the first
    match of one of them; with no match anywhere the resolution fails
    with NotFound for that query. *)
Theorem find_element_sound (page : Page) (q : string)
    (cfg : option RetryConfig) (w : World) :
  let snap := matches (page (now w)) in
  ((exists d, fst (find_element page q cfg w) = Ok d) <->
   (exists s, In s (strategy_chain q) /\ snap (locator_of q s) <> [])) /\
  (forall d, fst (find_element page q cfg w) = Ok d ->
     exists s, In s (strategy_chain q) /\
               hd_error (snap (locator_of q s)) = Some (locator d)) /\
  ((forall s, In s (strategy_chain q) -> snap (locator_of q s) = []) ->
   exists avail,
     fst (find_element page q cfg w) = Raise (ElementNotFoundError q avail)).
Proof.
  intros snap.
  destruct (find_element_run page q cfg w) as [r [extra [Hrun [_ Hres]]]].
  rewrite Hrun. cbn [fst]. fold snap in Hres.
  destruct (snd (first_success snap q (strategy_chain q))) as [[s e]|] eqn:Hwalk.
  - destruct Hres as [_ [d [-> [Hloc _]]]].
    destruct (first_success_hit _ _ _ _ _ Hwalk) as [Hin Hhd].
    split; [|split].
    + split; [intros _ | intros _; now exists d].
      exists s. split; [exact Hin|]. intros Hnil. rewrite Hnil in Hhd. discriminate.
    + intros d' Hd'. injection Hd' as <-. exists s. now rewrite Hloc.
    + intros Hall. rewrite (Hall s Hin) in Hhd. discriminate.
  - destruct Hres as [_ [avail ->]].
    pose proof (proj1 (first_success_miss snap q (strategy_chain q)) Hwalk) as Hall.
    split; [|split].
    + split; [intros [d Hd]; discriminate|].
      intros [s [Hin Hne]]. now rewrite (Hall s Hin) in Hne.
    + intros d Hd. discriminate.
    + intros _. now exists avail.
Qed.

(** When [find_element] raises, it raises NotFound for the query, with
    the suggestions [_get_available_interactive] collects at that
    instant. *)
Lemma find_element_failure (page : Page) (q : string)
    (cfg : option RetryConfig) (w : World) (e : Exn) :
  fst (find_element page q cfg w) = Raise e ->
  exists w1 avail,
    now w1 = now w /\
    fst (_get_available_interactive page 15 w1) = Ok avail /\
    e = ElementNotFoundError q avail.
Proof.
  unfold find_element, find_roles.
  destruct (_looks_like_selector q);
    cbn [find_by_role];
    unfold bind, emit, query_all, ret, raise; cbn [now trace];
    repeat
      (match goal with
       | |- context [match matches (page (now w)) ?l with _ => _ end] =>
           destruct (matches (page (now w)) l);
           cbn [now trace fst snd];
           [ | intros Hr; discriminate Hr ]
       end);
    match goal with
    | |- context [_get_available_interactive page 15 ?w1] =>
        destruct (get_available_run page 15 w1) as [avail [extra [Hav _]]];
        rewrite Hav; cbn [fst]; intros Hr; injection Hr as <-;
        exists w1, avail; rewrite Hav; auto
    end.
Qed.

(** One suggestion: a role of the scan, in brackets, and a non-empty
    name of at most 50 characters. *)
Lemma available_of_role_shape (r : string) (els : list Element) :
  Forall (fun s => exists name,
            s = ("[" ++ r ++ "] " ++ name)%string /\ name <> EmptyString /\
            String.length name <= 50)
         (available_of_role r els)
  /\ List.length (available_of_role r els) <= 5.
Proof.
  unfold available_of_role.
  assert (Hlen : List.length (firstn 5 els) <= 5) by apply firstn_le_length.
  revert Hlen. generalize (firstn 5 els) as l. intros l Hlen.
  match goal with |- _ /\ List.length ?x <= _ =>
    cut (List.length x <= List.length l) end.
  { intros Hle. split; [|lia]. clear Hlen Hle.
    induction l as [|el l IH]; [constructor|]. cbn [flat_map].
    destruct (take 50 (strip (inner_text el))) as [|c name] eqn:Hname;
      [exact IH|].
    constructor; [|exact IH]. exists (String c name).
    repeat split; [discriminate|]. rewrite <- Hname. apply take_length. }
  clear Hlen. induction l as [|el l IH]; [reflexivity|]. cbn [flat_map].
  destruct (take 50 (strip (inner_text el))); simpl in *; lia.
Qed.

Lemma available_loop_shape (page : Page) (limit : Z) (roles : list string) :
  forall items w,
  Forall (fun s => exists r name,
            In r available_roles /\
            s = ("[" ++ r ++ "] " ++ name)%string /\ name <> EmptyString /\
            String.length name <= 50) items ->
  incl roles available_roles ->
  exists avail,
    fst (available_loop page limit roles items w) = Ok avail /\
    Forall (fun s => exists r name,
              In r available_roles /\
              s = ("[" ++ r ++ "] " ++ name)%string /\ name <> EmptyString /\
              String.length name <= 50) avail.
Proof.
  induction roles as [|r roles IH]; intros items w Hitems Hincl.
  - exists items. split; [reflexivity | exact Hitems].
  - cbn [available_loop]. unfold bind, query_all. cbn [now trace].
    set (items' := (items ++ available_of_role r _)%list).
    assert (Hitems' : Forall (fun s => exists r name,
              In r available_roles /\
              s = ("[" ++ r ++ "] " ++ name)%string /\ name <> EmptyString /\
              String.length name <= 50) items').
    { apply Forall_app. split; [exact Hitems|].
      eapply Forall_impl; [|apply available_of_role_shape].
      intros s [name Hs]. exists r, name. split; [|exact Hs].
      apply Hincl. now left. }
    destruct (limit <=? Z.of_nat (List.length items'))%Z.
    + exists items'. split; [reflexivity | exact Hitems'].
    + apply IH; [exact Hitems'|]. intros x Hx. apply Hincl. now right.
Qed.

(** X2. A failed resolution carries the query and at most 15 suggestions,
    each a role among button, link, textbox and menuitem, in brackets,
    followed by a non-empty name of at most 50 characters. *)
Theorem not_found_suggestions (page : Page) (q : string)
    (cfg : option RetryConfig) (w : World) (e : Exn) :
  fst (find_element page q cfg w) = Raise e ->
  exists avail,
    e = ElementNotFoundError q avail /\
    List.length avail <= 15 /\
    Forall (fun s => exists r name,
              In r ["button"; "link"; "textbox"; "menuitem"] /\
              s = ("[" ++ r ++ "] " ++ name)%string /\ name <> EmptyString /\
              String.length name <= 50) avail.
Proof.
  intros Hfail.
  destruct (find_element_failure page q cfg w e Hfail)
    as [w1 [avail [_ [Hav ->]]]].
  exists avail. split; [reflexivity|].
  unfold _get_available_interactive, bind in Hav.
  destruct (available_loop_shape page 15 available_roles [] w1)
    as [items [Hitems Hshape]]; [constructor | apply incl_refl |].
  destruct (available_loop page 15 available_roles [] w1) as [[items'|e'] w2];
    cbn [fst] in Hitems; [|discriminate].
  injection Hitems as ->. unfold ret in Hav. cbn [fst] in Hav.
  injection Hav as <-. unfold Py.slice_to.
  change (0 <=? 15)%Z with true. change (Z.to_nat 15) with 15. cbv iota.
  split; [apply firstn_le_length|].
  rewrite <- (firstn_skipn 15 items) in Hshape.
  apply Forall_app in Hshape. exact (proj1 Hshape).
Qed.

End ResolverMore.

(* ------------------------------------------------------------------ *)
(** ** Listing by role and fuzzy matching *)

Section MatchingFacts.
Import Driver Config Elements PyStr Matching Reading.

(** X3. [find_all_by_role] makes one lookup and returns the first fifty
    matches at most, in driver order, each tagged with the role and with
    a text of at most 100 characters. *)
Theorem find_all_by_role_bounded (page : Page) (r : string) (w : World) :
  exists found,
    find_all_by_role page r w =
      (Ok found, mkWorld (now w) (trace w ++ [EvCount (ByRole r None)])) /\
    map locator found = firstn 50 (matches (page (now w)) (ByRole r None)) /\
    List.length found =
      Nat.min 50 (List.length (matches (page (now w)) (ByRole r None))) /\
    Forall (fun d => role d = Some r /\ label d = None /\
                     String.length (text d) <= 100) found.
Proof.
  unfold find_all_by_role, bind, query_all, ret. cbn [now trace].
  eexists. split; [reflexivity|].
  generalize (matches (page (now w)) (ByRole r None)) as els. intros els.
  split; [|split].
  - rewrite map_map. cbn [locator]. apply map_id.
  - rewrite length_map. apply length_firstn.
  - apply Forall_map. apply Forall_forall. intros el _. cbn [role label text].
    repeat split. apply take_length.
Qed.

Lemma contains_empty (s : string) : contains EmptyString s = true.
Proof. destruct s; reflexivity. Qed.

Lemma contains_refl (s : string) : contains s s = true.
Proof.
  apply contains_app. exists EmptyString, EmptyString.
  simpl. induction s as [|c s IH]; [reflexivity|]. simpl. now rewrite <- IH.
Qed.

Lemma lower_char_space (c : ascii) : is_space (lower_char c) = is_space c.
Proof.
  destruct c as [[|] [|] [|] [|] [|] [|] [|] [|]]; vm_compute; reflexivity.
Qed.

Lemma lower_char_idem (c : ascii) : lower_char (lower_char c) = lower_char c.
Proof.
  destruct c as [[|] [|] [|] [|] [|] [|] [|] [|]]; vm_compute; reflexivity.
Qed.

Lemma lower_idem (s : string) : lower (lower s) = lower s.
Proof.
  induction s as [|c s IH]; [reflexivity|]. simpl.
  now rewrite lower_char_idem, IH.
Qed.

Lemma lower_collapse (b : bool) (s : string) :
  lower (collapse_spaces b s) = collapse_spaces b (lower s).
Proof.
  revert b. induction s as [|c s IH]; intros b; [reflexivity|].
  cbn [collapse_spaces lower]. rewrite lower_char_space.
  destruct (is_space c), b; cbn [lower]; rewrite ?IH; reflexivity.
Qed.

Lemma collapse_collapse (s : string) :
  forall b b', implb b' b = true ->
  collapse_spaces b' (collapse_spaces b s) = collapse_spaces b s.
Proof.
  induction s as [|c s IH]; intros b b' Hb; [reflexivity|].
  cbn [collapse_spaces]. destruct (is_space c) eqn:Hc.
  - destruct b.
    + now apply IH.
    + destruct b'; [discriminate|]. cbn [collapse_spaces].
      change (is_space " "%char) with true. cbv iota.
      now rewrite IH.
  - cbn [collapse_spaces]. rewrite Hc. now rewrite IH.
Qed.

Lemma lstrip_length (s : string) : String.length (lstrip s) <= String.length s.
Proof.
  induction s as [|c s IH]; simpl; [lia|]. destruct (is_space c); simpl; lia.
Qed.

(** A string [lstrip] leaves alone is empty or starts with a character
    that is no whitespace. *)
Lemma lstrip_fixed (c : ascii) (s : string) :
  lstrip (String c s) = String c s -> is_space c = false.
Proof.
  simpl. destruct (is_space c); [|reflexivity].
  intros H. pose proof (lstrip_length s) as Hlen. rewrite H in Hlen.
  simpl in Hlen. lia.
Qed.

Lemma lstrip_idem (s : string) : lstrip (lstrip s) = lstrip s.
Proof.
  induction s as [|c s IH]; [reflexivity|]. simpl.
  destruct (is_space c) eqn:Hc; [exact IH|]. simpl. now rewrite Hc.
Qed.

(** What it means for [rstrip] to leave a non-empty string alone. *)
Lemma rstrip_fixed (c : ascii) (s : string) :
  rstrip (String c s) = String c s ->
  (s = EmptyString /\ is_space c = false) \/
  (s <> EmptyString /\ rstrip s = s).
Proof.
  simpl. destruct (rstrip s) as [|d r] eqn:Hr.
  - destruct (is_space c); [discriminate|]. intros H. injection H as <-. auto.
  - intros H. injection H as <-. right. split; [discriminate | reflexivity].
Qed.

Lemma rstrip_idem (s : string) : rstrip (rstrip s) = rstrip s.
Proof.
  induction s as [|c s IH]; [reflexivity|]. simpl.
  destruct (rstrip s) as [|d r] eqn:Hr.
  - destruct (is_space c) eqn:Hc; [reflexivity|]. simpl. now rewrite Hc.
  - change (rstrip (String c (String d r)))
      with (match rstrip (String d r) with
            | EmptyString => if is_space c then EmptyString else String c EmptyString
            | String a b => String c (String a b)
            end).
    now rewrite IH.
Qed.

Lemma rstrip_lower (s : string) : rstrip (lower s) = lower (rstrip s).
Proof.
  induction s as [|c s IH]; [reflexivity|]. cbn [lower rstrip].
  rewrite IH, lower_char_space.
  destruct (rstrip s); cbn [lower]; [destruct (is_space c)|]; reflexivity.
Qed.

Lemma lstrip_lower (s : string) : lstrip (lower s) = lower (lstrip s).
Proof.
  induction s as [|c s IH]; [reflexivity|]. cbn [lower lstrip].
  rewrite lower_char_space. destruct (is_space c); [exact IH | reflexivity].
Qed.

Lemma lstrip_rstrip (s : string) :
  lstrip s = s -> lstrip (rstrip s) = rstrip s.
Proof.
  destruct s as [|c s]; [reflexivity|]. intros H.
  pose proof (lstrip_fixed c s H) as Hc. cbn [rstrip].
  destruct (rstrip s); rewrite ?Hc; simpl; now rewrite Hc.
Qed.

Lemma collapse_nonempty (s : string) :
  forall b, rstrip s = s -> s <> EmptyString ->
  collapse_spaces b s <> EmptyString.
Proof.
  induction s as [|c s IH]; intros b Hr Hne; [congruence|].
  cbn [collapse_spaces].
  destruct (rstrip_fixed c s Hr) as [[-> Hc] | [Hs Hrs]].
  - rewrite Hc. discriminate.
  - destruct (is_space c); [|discriminate].
    destruct b; [now apply IH | discriminate].
Qed.

Lemma rstrip_collapse (s : string) :
  forall b, rstrip s = s -> rstrip (collapse_spaces b s) = collapse_spaces b s.
Proof.
  induction s as [|c s IH]; intros b Hr; [reflexivity|].
  cbn [collapse_spaces].
  destruct (rstrip_fixed c s Hr) as [[-> Hc] | [Hs Hrs]].
  - rewrite Hc. simpl. now rewrite Hc.
  - destruct (is_space c) eqn:Hc.
    + destruct b; [now apply IH|]. cbn [rstrip]. rewrite (IH true Hrs).
      pose proof (collapse_nonempty s true Hrs Hs) as Hne.
      destruct (collapse_spaces true s); [congruence | reflexivity].
    + cbn [rstrip]. rewrite (IH false Hrs).
      pose proof (collapse_nonempty s false Hrs Hs) as Hne.
      destruct (collapse_spaces false s); [congruence | reflexivity].
Qed.

Lemma lstrip_collapse (s : string) :
  lstrip s = s -> lstrip (collapse_spaces false s) = collapse_spaces false s.
Proof.
  destruct s as [|c s]; [reflexivity|]. intros H.
  pose proof (lstrip_fixed c s H) as Hc. cbn [collapse_spaces].
  rewrite Hc. simpl. now rewrite Hc.
Qed.

Lemma words_space (c : ascii) (s : string) :
  is_space c = true -> words (String c s) = words s.
Proof. intros H. cbn [words]. now rewrite H. Qed.

Lemma words_char (c : ascii) (s : string) :
  is_space c = false ->
  words (String c s) =
  match s with
  | EmptyString => [String c EmptyString]
  | String d _ =>
      if is_space d then String c EmptyString :: words s
      else match words s with
           | w :: ws => String c w :: ws
           | [] => [String c EmptyString]
           end
  end.
Proof. intros H. cbn [words]. rewrite H. destruct s; reflexivity. Qed.

Lemma words_lstrip (s : string) : words (lstrip s) = words s.
Proof.
  induction s as [|c s IH]; [reflexivity|]. cbn [lstrip].
  destruct (is_space c) eqn:Hc; [|reflexivity].
  now rewrite (words_space c s Hc).
Qed.

Lemma rstrip_head (d e : ascii) (y r : string) :
  rstrip (String d y) = String e r -> e = d.
Proof.
  cbn [rstrip]. destruct (rstrip y); [destruct (is_space d)|];
    intros H; congruence.
Qed.

Lemma rstrip_blank_head (d : ascii) (y : string) :
  rstrip (String d y) = EmptyString -> is_space d = true.
Proof.
  cbn [rstrip]. destruct (rstrip y); [destruct (is_space d)|];
    intros H; congruence.
Qed.

Lemma words_rstrip (s : string) : words (rstrip s) = words s.
Proof.
  induction s as [|c s IH]; [reflexivity|].
  change (rstrip (String c s))
    with (match rstrip s with
          | EmptyString => if is_space c then EmptyString else String c EmptyString
          | String a b => String c (String a b)
          end).
  destruct (is_space c) eqn:Hc.
  - rewrite (words_space c s Hc), <- IH.
    destruct (rstrip s); [reflexivity | now apply words_space].
  - rewrite (words_char c s Hc).
    destruct (rstrip s) as [|e r] eqn:Hr.
    + rewrite (words_char c _ Hc).
      destruct s as [|d y]; [reflexivity|].
      rewrite (rstrip_blank_head d y Hr), <- IH. reflexivity.
    + destruct s as [|d y]; [discriminate|].
      pose proof (rstrip_head d e y r Hr) as ->.
      rewrite (words_char c _ Hc), IH. reflexivity.
Qed.

Lemma words_nonempty (s : string) :
  rstrip s = s -> s <> EmptyString -> words s <> [].
Proof.
  induction s as [|c s IH]; intros Hr Hne; [congruence|].
  destruct (rstrip_fixed c s Hr) as [[-> Hc] | [Hs Hrs]].
  - rewrite (words_char c _ Hc). discriminate.
  - specialize (IH Hrs Hs). destruct (is_space c) eqn:Hc.
    + now rewrite (words_space c s Hc).
    + rewrite (words_char c s Hc). destruct s as [|d y]; [congruence|].
      destruct (is_space d); [discriminate|].
      destruct (words (String d y)); discriminate.
Qed.

Lemma join_head (c : ascii) (w : string) (ws : list string) :
  join " " (String c w :: ws) = String c (join " " (w :: ws)).
Proof. destruct ws; reflexivity. Qed.

Lemma join_more (p : string) (rest : list string) :
  rest <> [] -> join " " (p :: rest) = (p ++ " " ++ join " " rest)%string.
Proof. destruct rest; [congruence | reflexivity]. Qed.

(** Collapsing the whitespace of a string that does not end in
    whitespace joins its words with single spaces, after one space for
    a whitespace it begins with. *)
Lemma collapse_words (s : string) :
  rstrip s = s ->
  collapse_spaces true s = join " " (words s) /\
  collapse_spaces false s =
  match s with
  | EmptyString => EmptyString
  | String c _ =>
      if is_space c then String " " (join " " (words s)) else join " " (words s)
  end.
Proof.
  induction s as [|c s IH]; intros Hr; [split; reflexivity|].
  cbn [collapse_spaces].
  destruct (rstrip_fixed c s Hr) as [[-> Hc] | [Hs Hrs]].
  - rewrite Hc, (words_char c _ Hc). split; reflexivity.
  - destruct (IH Hrs) as [IHt IHf]. destruct (is_space c) eqn:Hc.
    + rewrite (words_space c s Hc), IHt. split; reflexivity.
    + rewrite (words_char c s Hc), IHf. destruct s as [|d y]; [congruence|].
      destruct (is_space d) eqn:Hd.
      * rewrite (join_more _ _ (words_nonempty _ Hrs Hs)). split; reflexivity.
      * pose proof (words_nonempty _ Hrs Hs) as Hw.
        destruct (words (String d y)) as [|w ws]; [congruence|].
        rewrite join_head. split; reflexivity.
Qed.

Lemma without_spaces_lower (s : string) :
  without_spaces (lower s) = lower (without_spaces s).
Proof.
  induction s as [|c s IH]; [reflexivity|]. cbn [lower without_spaces].
  rewrite lower_char_space. destruct (is_space c); cbn [lower]; now rewrite IH.
Qed.

Lemma words_blank (s : string) :
  without_spaces s = EmptyString -> words s = [].
Proof.
  induction s as [|c s IH]; [reflexivity|]. cbn [without_spaces].
  destruct (is_space c) eqn:Hc; [|discriminate].
  intros H. rewrite (words_space c s Hc). now apply IH.
Qed.

Lemma normalize_words (s : string) :
  _normalize s = join " " (words (lower s)).
Proof.
  unfold _normalize, strip. rewrite <- rstrip_lower, <- lstrip_lower.
  assert (Hr : rstrip (rstrip (lstrip (lower s))) = rstrip (lstrip (lower s)))
    by apply rstrip_idem.
  assert (Hl : lstrip (rstrip (lstrip (lower s))) = rstrip (lstrip (lower s)))
    by apply lstrip_rstrip, lstrip_idem.
  destruct (collapse_words _ Hr) as [_ Hf]. rewrite Hf.
  rewrite words_rstrip, words_lstrip in *.
  destruct (rstrip (lstrip (lower s))) as [|c x] eqn:Hx.
  - rewrite <- (words_lstrip (lower s)), <- (words_rstrip (lstrip (lower s))), Hx.
    reflexivity.
  - now rewrite (lstrip_fixed c x Hl).
Qed.

(** X4. [_normalize] gives the words of the text, lower-cased and joined
    by single spaces: no whitespace is left at either end, every run of
    whitespace between two words is one space, and a text that is empty
    or all whitespace normalises to the empty string. Normalising twice
    changes nothing. A query and a text that normalise alike match, and a
    query that is empty or all whitespace matches every text. *)
Theorem normalize_idempotent (s t : string) :
  _normalize (_normalize s) = _normalize s /\
  (_normalize s = _normalize t -> _fuzzy_match s t = true) /\
  (_normalize s = EmptyString -> _fuzzy_match s t = true) /\
  _fuzzy_match s t = _fuzzy_match (_normalize s) (_normalize t) /\
  _normalize s = join " " (words (lower s)) /\
  strip (_normalize s) = _normalize s /\
  lower (_normalize s) = _normalize s /\
  collapse_spaces false (_normalize s) = _normalize s /\
  (without_spaces s = EmptyString ->
   _normalize s = EmptyString /\ _fuzzy_match s t = true).
Proof.
  assert (Hstrip : forall x, strip (_normalize x) = _normalize x).
  { intros x. unfold _normalize, strip.
    assert (Hl : lstrip (lower (rstrip (lstrip x))) = lower (rstrip (lstrip x))).
    { rewrite lstrip_lower. f_equal. apply lstrip_rstrip, lstrip_idem. }
    assert (Hr : rstrip (lower (rstrip (lstrip x))) = lower (rstrip (lstrip x))).
    { rewrite rstrip_lower. f_equal. apply rstrip_idem. }
    rewrite (lstrip_collapse _ Hl). apply rstrip_collapse. exact Hr. }
  assert (Hlower : forall x, lower (_normalize x) = _normalize x).
  { intros x. unfold _normalize. now rewrite lower_collapse, lower_idem. }
  assert (Hcollapse : forall x, collapse_spaces false (_normalize x) = _normalize x).
  { intros x. unfold _normalize. now apply collapse_collapse. }
  assert (Hidem : forall x, _normalize (_normalize x) = _normalize x).
  { intros x. unfold _normalize at 1.
    now rewrite Hstrip, Hlower, Hcollapse. }
  assert (Hnil : _normalize s = EmptyString -> _fuzzy_match s t = true).
  { intros Hnil. unfold _fuzzy_match. rewrite Hnil, contains_empty.
    apply orb_true_r. }
  split; [apply Hidem|]. split; [|split; [exact Hnil|split; [|split; [|split;
    [|split; [|split]]]]]].
  - intros Heq. unfold _fuzzy_match. rewrite Heq, String.eqb_refl. reflexivity.
  - unfold _fuzzy_match. now rewrite !Hidem.
  - apply normalize_words.
  - apply Hstrip.
  - apply Hlower.
  - apply Hcollapse.
  - intros Hblank.
    assert (He : _normalize s = EmptyString).
    { rewrite normalize_words, words_blank; [reflexivity|].
      now rewrite without_spaces_lower, Hblank. }
    split; [exact He | now apply Hnil].
Qed.

End MatchingFacts.

(* ------------------------------------------------------------------ *)
(** ** What a run depends on *)

Section FrameFacts.
Import Driver Config Elements Trace.
Local Open Scope py_scope.

(** A computation reads the clock and the page and only appends to the
    trace: run on a longer past, it gives the same outcome, the same
    instant and the same new events. *)
Definition framed {A : Type} (m : M A) : Prop :=
  forall t tr,
    m (mkWorld t tr) =
    (fst (m (mkWorld t [])),
     mkWorld (now (snd (m (mkWorld t [])))) (tr ++ trace (snd (m (mkWorld t []))))).

Lemma framed_ret {A : Type} (x : A) : framed (ret x).
Proof. intros t tr. cbn. now rewrite app_nil_r. Qed.

Lemma framed_raise {A : Type} (e : Exn) : framed (@raise A e).
Proof. intros t tr. cbn. now rewrite app_nil_r. Qed.

Lemma framed_emit (e : Event) : framed (emit e).
Proof. intros t tr. reflexivity. Qed.

Lemma framed_query_all (page : Page) (loc : Locator) : framed (query_all page loc).
Proof. intros t tr. reflexivity. Qed.

Lemma framed_bind {A B : Type} (m : M A) (k : A -> M B) :
  framed m -> (forall x, framed (k x)) -> framed (bind m k).
Proof.
  intros Hm Hk t tr. unfold bind. rewrite (Hm t tr).
  destruct (m (mkWorld t [])) as [[x|e] [t1 tr1]]; cbn [fst snd now trace].
  - rewrite (Hk x t1 (tr ++ tr1)), (Hk x t1 tr1).
    cbn [fst snd now trace]. now rewrite app_assoc.
  - reflexivity.
Qed.

Ltac frame_with known :=
  repeat first
    [ known
    | apply framed_ret | apply framed_raise | apply framed_emit
    | apply framed_query_all
    | apply framed_bind; [|intros ?]
    | match goal with
      | |- framed (let _ := _ in _) => cbv zeta
      | |- framed (match ?x with _ => _ end) => destruct x
      end ].

Ltac frame := frame_with fail.

Lemma framed_find_by_role (page : Page) (q : string) (roles : list string) :
  framed (find_by_role page q roles).
Proof.
  induction roles as [|r roles IH]; cbn [find_by_role]; frame. exact IH.
Qed.

Lemma framed_available_loop (page : Page) (limit : Z) (roles : list string) :
  forall items, framed (available_loop page limit roles items).
Proof.
  induction roles as [|r roles IH]; intros items; cbn [available_loop]; frame.
  apply IH.
Qed.

Lemma framed_find_element (page : Page) (q : string)
    (cfg : option RetryConfig) :
  framed (find_element page q cfg).
Proof.
  unfold find_element, _get_available_interactive;
    frame_with ltac:(first [ apply framed_find_by_role
                           | apply framed_available_loop ]).
Qed.

(** The outcome of an attempt depends on the page and the instant alone. *)
Lemma attempt_frame (page : Page) (q : string) (cfg : RetryConfig)
    (t : nat) (tr tr' : list Event) :
  attempt page q cfg t tr = attempt page q cfg t tr'.
Proof.
  unfold attempt.
  rewrite (framed_find_element page q (Some cfg) t tr),
          (framed_find_element page q (Some cfg) t tr').
  reflexivity.
Qed.

End FrameFacts.

(* ------------------------------------------------------------------ *)
(** ** The retry loop on any page *)

Section RetryMore.
Import Driver Config Elements Actions Chain Trace.

(** The loop on its last [m] attempts, whatever the page does: it stops
    at the first attempt that finds a descriptor, and fails only after
    the last one. *)
Lemma retry_loop_any (page : Page) (q : string) (cfg : RetryConfig) (m : nat) :
  forall (i : nat) (last : option Exn) (t : nat) (tr : list Event),
  max_retries cfg = Z.of_nat (i + S m) ->
  exists k r evs,
    k <= m /\
    retry_loop page q cfg (map Z.of_nat (seq i (S m))) last (mkWorld t tr) =
      (r, mkWorld (t + k) (tr ++ evs)) /\
    attempts_and_sleeps evs = retry_shape q (retry_delay_ms cfg) (S k) /\
    ((exists d, r = Ok d) \/
     (k = m /\ exists avail, r = Raise (ElementNotFoundError q avail))) /\
    (forall j, j < k ->
       exists avail, attempt page q cfg (t + j) [] =
                     Raise (ElementNotFoundError q avail)) /\
    r = attempt page q cfg (t + k) [].
Proof.
  induction m as [|m IH]; intros i last t tr Hmax.
  - destruct (find_element_attempt page q (Some cfg) t tr)
      as [r [evs [Hrun [Hevs Hr]]]].
    assert (Hat : attempt page q cfg t [] = r).
    { rewrite (attempt_frame page q cfg t [] tr). unfold attempt.
      now rewrite Hrun. }
    exists 0, r, evs. rewrite Nat.add_0_r. cbn [seq map].
    rewrite (retry_loop_cons _ _ _ _ _ _ _ _ _ Hrun).
    split; [lia|]. split; [|split; [exact Hevs|split; [|split]]].
    + destruct Hr as [[d ->] | [avail ->]]; [reflexivity|].
      replace (Z.of_nat i <? max_retries cfg - 1)%Z with false
        by (symmetry; apply Z.ltb_ge; lia).
      reflexivity.
    + destruct Hr as [Hd | Hav]; [now left | right; auto].
    + intros j Hj. lia.
    + now rewrite Hat.
  - destruct (find_element_attempt page q (Some cfg) t tr)
      as [r [evs [Hrun [Hevs Hr]]]].
    assert (Hat : attempt page q cfg t [] = r).
    { rewrite (attempt_frame page q cfg t [] tr). unfold attempt.
      now rewrite Hrun. }
    change (seq i (S (S m))) with (i :: seq (S i) (S m)). cbn [map].
    rewrite (retry_loop_cons _ _ _ _ _ _ _ _ _ Hrun).
    destruct Hr as [[d ->] | [avail ->]].
    + exists 0, (Ok d), evs. rewrite Nat.add_0_r.
      split; [lia|]. split; [reflexivity|]. split; [exact Hevs|].
      split; [left; now exists d|]. split; [intros j Hj; lia | now rewrite Hat].
    + replace (Z.of_nat i <? max_retries cfg - 1)%Z with true
        by (symmetry; apply Z.ltb_lt; lia).
      cbn [now trace].
      destruct (IH (S i) (Some (ElementNotFoundError q avail)) (S t)
                  ((tr ++ evs) ++ [EvSleep (retry_delay_ms cfg)]))
        as [k [r [evs' [Hk [Hloop [Hshape [Hr [Hmiss Hlast]]]]]]]].
      { rewrite Hmax. f_equal. lia. }
      exists (S k), r, (evs ++ EvSleep (retry_delay_ms cfg) :: evs').
      rewrite Hloop. replace (S t + k) with (t + S k) in * by lia.
      split; [lia|]. split; [|split; [|split; [|split]]].
      * f_equal. f_equal. rewrite <- !app_assoc. reflexivity.
      * unfold attempts_and_sleeps in *. rewrite filter_app, Hevs.
        cbn [filter is_attempt_or_sleep app]. now rewrite Hshape.
      * destruct Hr as [Hd | [-> Hav]]; [now left | right; auto].
      * intros [|j] Hj.
        -- rewrite Nat.add_0_r, Hat. now exists avail.
        -- replace (t + S j) with (S t + j) by lia. apply Hmiss. lia.
      * exact Hlast.
Qed.

(** X5. On any page, with [max_retries = N >= 1], [_with_retry] makes between
    one and [N] attempts and sleeps the configured delay between two
    consecutive ones and at no other moment: one sleep less than
    attempts. It stops at the first attempt that finds a descriptor and
    returns it: every attempt before the last one made ended in NotFound,
    and the outcome is that of the last one made, the descriptor it found
    or, only after [N] attempts, its NotFound for the query. The attempt
    number [j] is made at the instant [j] sleeps after the start, and its
    outcome depends on the page at that instant alone. *)
Theorem with_retry_any_page (page : Page) (q : string) (cfg : RetryConfig)
    (w : World) (N : nat) :
  max_retries cfg = Z.of_nat N ->
  1 <= N ->
  exists k r w' evs,
    1 <= k <= N /\
    _with_retry page q cfg w = (r, w') /\
    trace w' = trace w ++ evs /\
    now w' = now w + (k - 1) /\
    attempts_and_sleeps evs = retry_shape q (retry_delay_ms cfg) k /\
    count_attempts evs = k /\
    sleeps_of evs = repeat (retry_delay_ms cfg) (k - 1) /\
    ((exists d, r = Ok d) \/
     (k = N /\ exists avail, r = Raise (ElementNotFoundError q avail))) /\
    (forall j tr, j < k - 1 ->
       exists avail, attempt page q cfg (now w + j) tr =
                     Raise (ElementNotFoundError q avail)) /\
    (forall tr, r = attempt page q cfg (now w + (k - 1)) tr).
Proof.
  intros Hmax HN. destruct N as [|m]; [lia|]. destruct w as [t tr].
  destruct (retry_loop_any page q cfg m 0 None t tr Hmax)
    as [k [r [evs [Hk [Hloop [Hshape [Hr [Hmiss Hlast]]]]]]]].
  exists (S k), r, (mkWorld (t + k) (tr ++ evs)), evs. cbn [now trace].
  destruct (counts_of_attempts_and_sleeps evs) as [Hc Hs].
  destruct (retry_shape_counts q (retry_delay_ms cfg) (S k)) as [Hc' Hs'].
  rewrite Hshape in Hc, Hs. rewrite Hc' in Hc. rewrite Hs' in Hs.
  replace (S k - 1) with k in * by lia.
  split; [lia|]. split.
  { unfold _with_retry, Py.range. rewrite Hmax, Nat2Z.id. exact Hloop. }
  split; [reflexivity|]. split; [reflexivity|]. split; [exact Hshape|].
  split; [auto|]. split; [auto|]. split.
  { destruct Hr as [Hd | [-> Hav]]; [now left | right; auto]. }
  split.
  - intros j tr' Hj. rewrite (attempt_frame page q cfg (t + j) tr' []).
    now apply Hmiss.
  - intros tr'. rewrite (attempt_frame page q cfg (t + k) tr' []). exact Hlast.
Qed.

(** X6. With a retry budget of zero or less, [_with_retry] makes no attempt
    at all and fails with a [TypeError] (it raises its unset last error),
    not with NotFound. *)
Theorem with_retry_no_budget (page : Page) (q : string) (cfg : RetryConfig)
    (w : World) :
  (max_retries cfg <= 0)%Z ->
  _with_retry page q cfg w = (Raise TypeError, w).
Proof.
  intros Hmax. unfold _with_retry, Py.range.
  replace (Z.to_nat (max_retries cfg)) with 0 by lia. reflexivity.
Qed.

End RetryMore.

(* ------------------------------------------------------------------ *)
(** ** What the verbs do to the page *)

Section VerbFacts.
Import Driver Config Elements Actions Chain Trace Observe Verbs Reading.

Lemma interactions_app (a b : list Event) :
  interactions (a ++ b) = interactions a ++ interactions b.
Proof. apply filter_app. Qed.

Lemma finds_of_app (a b : list Event) :
  finds_of (a ++ b) = finds_of a ++ finds_of b.
Proof. apply flat_map_app. Qed.

Lemma probes_passive (q : string) (tried : list Strategy) :
  interactions (probe_events q tried) = [] /\ finds_of (probe_events q tried) = [].
Proof.
  induction tried as [|s tried [IH1 IH2]]; split; auto.
Qed.

Lemma role_scans_passive (extra : list Event) :
  Forall is_role_scan extra -> interactions extra = [] /\ finds_of extra = [].
Proof.
  induction 1 as [|e extra [r ->] _ [IH1 IH2]]; split; auto.
Qed.

(** One attempt looks the page up and does nothing to it. *)
Lemma find_element_passive (page : Page) (q : string)
    (cfg : option RetryConfig) (t : nat) (tr : list Event) :
  exists r evs,
    find_element page q cfg (mkWorld t tr) = (r, mkWorld t (tr ++ evs))
    /\ interactions evs = []
    /\ finds_of evs = [q]
    /\ ((exists d, r = Ok d) \/ (exists avail, r = Raise (ElementNotFoundError q avail))).
Proof.
  destruct (find_element_run page q cfg (mkWorld t tr))
    as [r [extra [Hrun [Hextra Hres]]]].
  cbn [now trace] in *. exists r. eexists. split; [exact Hrun|].
  destruct (probes_passive q
              (fst (first_success (matches (page t)) q (strategy_chain q))))
    as [Hp1 Hp2].
  destruct (role_scans_passive extra Hextra) as [He1 He2].
  split; [|split].
  - change (EvFind q :: ?l) with ([EvFind q] ++ l).
    now rewrite !interactions_app, Hp1, He1.
  - change (EvFind q :: ?l) with ([EvFind q] ++ l).
    now rewrite !finds_of_app, Hp2, He2.
  - destruct (snd (first_success _ _ _)) as [[s e]|].
    + destruct Hres as [_ [d [Hr _]]]. left. now exists d.
    + destruct Hres as [_ [avail Hr]]. right. now exists avail.
Qed.

Lemma retry_loop_passive (page : Page) (q : string) (cfg : RetryConfig)
    (attempts : list Z) :
  forall (last : option Exn) (w : World),
  exists r w' evs,
    retry_loop page q cfg attempts last w = (r, w') /\
    trace w' = trace w ++ evs /\ interactions evs = [].
Proof.
  induction attempts as [|a attempts IH]; intros last w.
  - exists (match last with Some e => Raise e | None => Raise TypeError end), w, [].
    rewrite app_nil_r. split; [destruct last; reflexivity | auto].
  - destruct w as [t tr].
    destruct (find_element_passive page q (Some cfg) t tr)
      as [r [evs [Hrun [Hint [_ Hr]]]]].
    rewrite (retry_loop_cons _ _ _ _ _ _ _ _ _ Hrun).
    destruct Hr as [[d ->] | [avail ->]].
    + exists (Ok d), (mkWorld t (tr ++ evs)), evs. auto.
    + cbn [now trace].
      match goal with |- context [retry_loop _ _ _ _ ?l ?w1] =>
        destruct (IH l w1) as [r [w' [evs' [Hloop [Htr Hint']]]]] end.
      exists r, w'. rewrite Hloop.
      destruct (a <? max_retries cfg - 1)%Z; cbn [trace] in Htr.
      * exists (evs ++ EvSleep (retry_delay_ms cfg) :: evs').
        split; [reflexivity|]. split.
        -- rewrite Htr, <- !app_assoc. reflexivity.
        -- change (EvSleep ?d :: ?l) with ([EvSleep d] ++ l).
           now rewrite !interactions_app, Hint, Hint'.
      * exists (evs ++ evs'). split; [reflexivity|]. split.
        -- now rewrite Htr, <- app_assoc.
        -- now rewrite interactions_app, Hint, Hint'.
Qed.

(** X7. [click] and [select_option] act on the page exactly once, on the
    element the retried resolution returned, and not at all when the
    resolution fails: the failure is passed on as it is. After the act the
    verb returns the element, unless pacing is enabled with its lower bound
    above the upper one: then the pause raises [ValueError], the act being
    done. *)
Theorem verbs_act_once (page : Page) (q value : string)
    (retry : RetryConfig) (stealth : StealthConfig) (w : World) :
  (exists r w' evs,
     click page q retry stealth w = (r, w') /\
     trace w' = trace w ++ evs /\
     interactions evs =
       match fst (_with_retry page q retry w) with
       | Ok el => [EvClick (handle (locator el))]
       | Raise _ => []
       end /\
     r = match fst (_with_retry page q retry w) with
         | Ok el => if pacing_raises stealth then Raise ValueError else Ok el
         | Raise e => Raise e
         end) /\
  (exists r w' evs,
     select_option page q value retry stealth w = (r, w') /\
     trace w' = trace w ++ evs /\
     interactions evs =
       match fst (_with_retry page q retry w) with
       | Ok el => [EvSelectOption (handle (locator el)) value]
       | Raise _ => []
       end /\
     r = match fst (_with_retry page q retry w) with
         | Ok el => if pacing_raises stealth then Raise ValueError else Ok el
         | Raise e => Raise e
         end).
Proof.
  destruct (retry_loop_passive page q retry (Py.range (max_retries retry)) None w)
    as [r [w1 [evs [Hrun [Htr Hint]]]]].
  fold (_with_retry page q retry) in Hrun.
  unfold click, select_option, bind. rewrite Hrun. cbn [fst].
  destruct r as [el|e].
  - unfold emit, Stealth.random_delay, emit_tick, ret, raise, pacing_raises.
    destruct (enabled stealth); cbn [negb andb now trace];
      try destruct (random_delay_max_ms stealth <? random_delay_min_ms stealth)%Z;
      split; eexists; eexists; eexists;
      (split; [reflexivity|]); cbn [trace]; rewrite Htr, <- ?app_assoc;
      (split; [reflexivity|]);
      (split; [|reflexivity]);
      rewrite interactions_app, Hint; reflexivity.
  - split; exists (Raise e), w1, evs; auto.
Qed.

End VerbFacts.

(* ------------------------------------------------------------------ *)
(** ** Filling a form: order, failure and submission *)

Section FormMore.
Import Driver Config Elements Actions Forms Trace Observe Reading.



(** X9. Without [submit], [fill_form] is the filling of the fields; with
    it, an error of the filling ends the call before any submission, and
    after a successful filling one more action is made: with no form on
    the page, Enter is pressed; otherwise the submit text of the first
    form is resolved by one attempt, what was found is clicked, and when
    nothing is found the error is swallowed and Enter is pressed instead.
    The call then ends well. *)
Theorem fill_form_submit_total (page : Page) (items : list (string * string))
    (retry : RetryConfig) (stealth : StealthConfig) (w : World) :
  fill_form page items false retry stealth w
  = fill_fields page items retry stealth w /\
  (forall e w1,
     fill_fields page items retry stealth w = (Raise e, w1) ->
     fill_form page items true retry stealth w = (Raise e, w1)) /\
  (forall w1,
     fill_fields page items retry stealth w = (Ok tt, w1) ->
     exists w2 evs,
       fill_form page items true retry stealth w = (Ok tt, w2) /\
       trace w2 = trace w1 ++ evs /\
       now w2 = now w1 /\
       match forms (page (now w1)) with
       | [] => evs = [EvKeyboardPress "Enter"]
       | form :: _ =>
           finds_of evs = [submit_text form] /\
           interactions evs =
             match attempt page (submit_text form) retry (now w1) [] with
             | Ok el => [EvClick (handle (locator el))]
             | Raise _ => [EvKeyboardPress "Enter"]
             end
       end).
Proof.
  split; [|split].
  - unfold fill_form, bind.
    destruct (fill_fields page items retry stealth w) as [[[]|e] w1]; reflexivity.
  - intros e w1 Hfill. unfold fill_form, bind. now rewrite Hfill.
  - intros w1 Hfill. unfold fill_form, bind at 1. rewrite Hfill.
    unfold bind at 1, detect_forms.
    destruct (forms (page (now w1))) as [|form rest].
    + unfold emit. eexists. exists [EvKeyboardPress "Enter"].
      split; [reflexivity|]. cbn [now trace]. auto.
    + destruct w1 as [t1 tr1]. unfold bind at 1, try, bind at 1.
      destruct (find_element_passive page (submit_text form) (Some retry) t1 tr1)
        as [r [evs [Hrun [Hint [Hfinds Hr]]]]].
      assert (Hat : attempt page (submit_text form) retry t1 [] = r).
      { rewrite (attempt_frame page (submit_text form) retry t1 [] tr1).
        unfold attempt. now rewrite Hrun. }
      cbn [now]. rewrite Hat, Hrun.
      destruct Hr as [[el ->] | [avail ->]].
      * unfold emit, ret. cbn [now trace].
        eexists. exists (evs ++ [EvClick (handle (locator el))]).
        split; [reflexivity|]. cbn [now trace]. rewrite <- app_assoc.
        split; [reflexivity|]. split; [reflexivity|].
        now rewrite finds_of_app, interactions_app, Hint, Hfinds.
      * unfold emit. cbn [now trace].
        eexists. exists (evs ++ [EvKeyboardPress "Enter"]).
        split; [reflexivity|]. cbn [now trace]. rewrite <- app_assoc.
        split; [reflexivity|]. split; [reflexivity|].
        now rewrite finds_of_app, interactions_app, Hint, Hfinds.
Qed.

End FormMore.

(* ------------------------------------------------------------------ *)
(** ** Recordings: keeping, storing, loading, replaying *)

Section RecordingMore.
Import Py Recorder Store Agent.

Lemma record_all_idle (calls : list (float * string * Dict)) :
  forall r, _recording r = false -> record_all calls r = r.
Proof.
  induction calls as [|c calls IH]; intros r Hidle; [reflexivity|].
  unfold record_all in *. cbn [fold_left].
  assert (Hsame : record (fst (fst c)) (snd (fst c)) (snd c) r = r).
  { unfold record. now rewrite Hidle. }
  rewrite Hsame. now apply IH.
Qed.

(** X10. Once stopped, a recorder ignores every [record] until the next
    [start]: whatever is recorded in between, the recorder stays as
    [stop] left it and a second [stop] returns the same actions. *)
Theorem stopped_recorder_ignores (r : ActionRecorder)
    (calls : list (float * string * Dict)) :
  record_all calls (snd (stop r)) = snd (stop r) /\
  fst (stop (record_all calls (snd (stop r)))) = fst (stop r) /\
  record_all calls init = init.
Proof.
  assert (H : record_all calls (snd (stop r)) = snd (stop r))
    by (now apply record_all_idle).
  rewrite H. repeat split. now apply record_all_idle.
Qed.

Lemma from_dicts_to_dicts (l : list RecordedAction) :
  from_dicts (map to_dict l) = Ok l.
Proof.
  induction l as [|a l IH]; [reflexivity|]. cbn [map from_dicts].
  rewrite IH. now destruct a.
Qed.

(** X11. What a recorder saves under a name is what [load] gives back for
    that name, action by action, whatever was stored there before; the
    other names are not touched; and after a deletion the name is
    reported missing. *)
Theorem saved_recording_loads (r : ActionRecorder) (name descr : string)
    (storage : Storage) :
  load name (save_to r name storage descr) = Ok (_actions r) /\
  (forall other, other <> name ->
     load other (save_to r name storage descr) = load other storage) /\
  load name (fst (delete_recording name (save_to r name storage descr)))
  = Raise (RecordingError ("Recording '" ++ name ++ "' not found")%string) /\
  snd (delete_recording name (save_to r name storage descr)) = true.
Proof.
  unfold load, save_to, save_recording, delete_recording, save. cbn [fst snd].
  rewrite String.eqb_refl. split; [apply from_dicts_to_dicts|].
  split; [|split; reflexivity].
  intros other Hne. apply String.eqb_neq in Hne. now rewrite Hne.
Qed.

Lemma from_dicts_ok (raw : list Dict) :
  Forall (fun d => lookup "action" d <> None) raw ->
  exists l, from_dicts raw = Ok l /\ List.length l = List.length raw.
Proof.
  induction 1 as [|d raw Hd _ [l [IH Hlen]]].
  - now exists [].
  - cbn [from_dicts]. unfold from_dict.
    destruct (lookup "action" d) as [a|]; [|congruence].
    rewrite IH. eexists. split; [reflexivity|]. simpl. now rewrite Hlen.
Qed.

Lemma from_dicts_key_error (raw : list Dict) :
  Exists (fun d => lookup "action" d = None) raw ->
  from_dicts raw = Raise (KeyError "action").
Proof.
  induction 1 as [d raw Hd | d raw _ IH].
  - cbn [from_dicts]. unfold from_dict. now rewrite Hd.
  - cbn [from_dicts]. rewrite IH. unfold from_dict.
    destruct (lookup "action" d); reflexivity.
Qed.

(** X12. [load] fails with a [RecordingError] for a name the store does not
    hold and with [KeyError] as soon as one stored entry lacks its
    action; otherwise it gives one action per stored entry, the missing
    arguments read as an empty mapping and the missing timestamp as 0. *)
Theorem load_errors (name : string) (storage : Storage) :
  (storage name = None ->
   load name storage
   = Raise (RecordingError ("Recording '" ++ name ++ "' not found")%string)) /\
  (forall raw, storage name = Some raw ->
     (Exists (fun d => lookup "action" d = None) raw ->
      load name storage = Raise (KeyError "action")) /\
     (Forall (fun d => lookup "action" d <> None) raw ->
      exists l, load name storage = Ok l /\
                List.length l = List.length raw)) /\
  (forall a,
     from_dict [("action", a)]
     = Ok (mkRecordedAction a (VDict []) (VFloat 0%float))).
Proof.
  unfold load. split; [intros ->; reflexivity|]. split; [|reflexivity].
  intros raw ->. split; [apply from_dicts_key_error | apply from_dicts_ok].
Qed.

Variable inherited : string -> option Attr.
Variable call_outcome : list Call -> Call -> option Exn.
Variable getter_outcome : list Call -> string -> option Exn.

(** X13. [replay] fails before any invocation when the browser is not
    started, when the store has no recording of that name, and when one
    entry of the recording lacks its action: the entries before it are
    not replayed either. *)
Theorem replay_fails_early (storage : Storage) (name : string)
    (log : list Call) :
  replay inherited call_outcome getter_outcome false storage name log
  = (Raise BrowserNotStartedError, log) /\
  (storage name = None ->
   replay inherited call_outcome getter_outcome true storage name log
   = (Raise (RecordingError ("Recording '" ++ name ++ "' not found")%string),
      log)) /\
  (forall raw, storage name = Some raw ->
     Exists (fun d => lookup "action" d = None) raw ->
     replay inherited call_outcome getter_outcome true storage name log
     = (Raise (KeyError "action"), log)).
Proof.
  unfold replay, load. cbn [negb]. split; [reflexivity|]. split.
  - intros ->. reflexivity.
  - intros raw -> Hmissing. now rewrite (from_dicts_key_error raw Hmissing).
Qed.



Lemma recorded_verbs_are_methods (name : string) :
  In name recorded_verbs -> agent_attr inherited name = Some Coroutine.
Proof.
  unfold recorded_verbs, agent_attr. intros Hin. simpl in Hin.
  repeat (destruct Hin as [<- | Hin]; [reflexivity|]). contradiction.
Qed.

Lemma replay_loop_recorded (t0 : float) (calls : list (float * string * Dict)) :
  (forall hist c, call_outcome hist c = None) ->
  Forall (fun c => In (snd (fst c)) recorded_verbs) calls ->
  forall log,
  replay_loop inherited call_outcome getter_outcome
    (map (recorded_of t0) calls) log
  = (Ok tt, log ++ map (fun c => (snd (fst c), snd c)) calls).
Proof.
  intros Hret Hall. induction Hall as [|c calls Hc _ IH]; intros log.
  - simpl. now rewrite app_nil_r.
  - cbn [map replay_loop]. unfold replay_one, recorded_of at 1 2.
    cbn [action args]. rewrite (recorded_verbs_are_methods _ Hc), Hret.
    rewrite IH, <- app_assoc. reflexivity.
Qed.

(** X15. Recording, saving and replaying compose: the verbs recorded in a
    session (their names are the agent's recorded verbs), once stopped
    and saved under a name, are invoked again by [replay] of that name
    with the same arguments and in the same order, when the invoked
    methods return. *)
Theorem recorded_session_replays (r : ActionRecorder) (t0 : float)
    (calls : list (float * string * Dict)) (name descr : string)
    (storage : Storage) (log : list Call) :
  (forall hist c, call_outcome hist c = None) ->
  Forall (fun c => In (snd (fst c)) recorded_verbs) calls ->
  let session := snd (stop (record_all calls (start t0 r))) in
  replay inherited call_outcome getter_outcome true
    (save_to session name storage descr) name log
  = (Ok tt, log ++ map (fun c => (snd (fst c), snd c)) calls).
Proof.
  intros Hret Hall session. unfold replay. cbn [negb].
  assert (Hload : load name (save_to session name storage descr)
                  = Ok (_actions session)).
  { unfold load, save_to, save_recording, save. rewrite String.eqb_refl.
    apply from_dicts_to_dicts. }
  rewrite Hload. subst session.
  rewrite (record_all_recording calls (start t0 r)) by reflexivity.
  cbn [stop snd _actions start app _start_time].
  now apply replay_loop_recorded.
Qed.

End RecordingMore.

(* ------------------------------------------------------------------ *)
(** ** The agent's recorded verbs *)

Section AgentVerbFacts.
Import Py Driver Config Recorder AgentVerbs Reading.

Lemma recorded_verb_started {A : Type} (t : float) (name : string)
    (kwargs : Dict) (action : M A) (a : BrowserAgent) (w : World) :
  _started a = true ->
  recorded_verb t name kwargs action a w =
  (drop_value (fst (action w)), snd (action w),
   with_recorder a (record t name kwargs (_recorder a))).
Proof.
  intros Hs. unfold recorded_verb. rewrite Hs. cbn [negb].
  destruct (action w) as [[v|e] w']; reflexivity.
Qed.

Lemma record_appends (t : float) (name : string) (kwargs : Dict)
    (r : ActionRecorder) :
  is_recording r = true ->
  _actions (record t name kwargs r) =
  _actions r ++ [mkRecordedAction (VStr name) (VDict kwargs)
                   (VFloat (PrimFloat.sub t (_start_time r)))].
Proof.
  unfold is_recording, record. intros ->. reflexivity.
Qed.

(** X16. A recorded verb is written to the recording before it runs. On a
    started agent, [click], [select] and [fill_form] each hand the call
    to the recorder and then run the verb of the page on the agent's
    retry and stealth policies: the page is left as the verb leaves it,
    the verb's error is passed on as it is, and its success is returned
    with the value dropped. With a recording session open the recorder
    has gained exactly one action, with the verb's name, its arguments
    and the time since the session began, whether the verb then succeeds
    or raises. On an agent that is not started the three raise at once,
    record nothing and leave the page alone. *)
Theorem verbs_record_before_running (t : float) (page : Page)
    (q value : string) (fields : list (string * string)) (submit : bool)
    (a : BrowserAgent) (w : World) :
  (_started a = false ->
   click t page q a w = (Raise BrowserNotStartedError, w, a) /\
   select t page q value a w = (Raise BrowserNotStartedError, w, a) /\
   fill_form t page fields submit a w = (Raise BrowserNotStartedError, w, a)) /\
  (_started a = true ->
   click t page q a w =
     (drop_value (fst (Actions.click page q (retry a) (stealth a) w)),
      snd (Actions.click page q (retry a) (stealth a) w),
      with_recorder a (record t "click" [("query", VStr q)] (_recorder a))) /\
   select t page q value a w =
     (drop_value (fst (Verbs.select_option page q value (retry a) (stealth a) w)),
      snd (Verbs.select_option page q value (retry a) (stealth a) w),
      with_recorder a
        (record t "select" [("query", VStr q); ("value", VStr value)]
           (_recorder a))) /\
   fill_form t page fields submit a w =
     (drop_value (fst (Forms.fill_form page fields submit (retry a) (stealth a) w)),
      snd (Forms.fill_form page fields submit (retry a) (stealth a) w),
      with_recorder a
        (record t "fill_form"
           [("fields", VDict (map (fun kv => (fst kv, VStr (snd kv))) fields));
            ("submit", VBool submit)]
           (_recorder a)))) /\
  (_started a = true ->
   is_recording (_recorder a) = true ->
   let offset := VFloat (PrimFloat.sub t (_start_time (_recorder a))) in
   _actions (_recorder (snd (click t page q a w)))
   = _actions (_recorder a)
     ++ [mkRecordedAction (VStr "click") (VDict [("query", VStr q)]) offset] /\
   _actions (_recorder (snd (select t page q value a w)))
   = _actions (_recorder a)
     ++ [mkRecordedAction (VStr "select")
           (VDict [("query", VStr q); ("value", VStr value)]) offset] /\
   _actions (_recorder (snd (fill_form t page fields submit a w)))
   = _actions (_recorder a)
     ++ [mkRecordedAction (VStr "fill_form")
           (VDict [("fields",
                    VDict (map (fun kv => (fst kv, VStr (snd kv))) fields));
                   ("submit", VBool submit)]) offset]) /\
  (_started a = true ->
   is_recording (_recorder a) = false ->
   snd (click t page q a w) = a /\
   snd (select t page q value a w) = a /\
   snd (fill_form t page fields submit a w) = a).
Proof.
  split; [|split; [|split]].
  - intros Hs. unfold click, select, fill_form, recorded_verb. now rewrite Hs.
  - intros Hs. unfold click, select, fill_form.
    now rewrite !(recorded_verb_started _ _ _ _ _ _ Hs).
  - intros Hs Hrec offset. unfold click, select, fill_form.
    rewrite !(recorded_verb_started _ _ _ _ _ _ Hs). cbn [snd].
    unfold with_recorder. cbn [_recorder].
    rewrite !(record_appends _ _ _ _ Hrec). auto.
  - intros Hs Hrec. unfold click, select, fill_form.
    rewrite !(recorded_verb_started _ _ _ _ _ _ Hs). cbn [snd].
    unfold is_recording in Hrec. unfold with_recorder, record. rewrite Hrec.
    cbn [negb]. destruct a; auto.
Qed.

End AgentVerbFacts.

(* ------------------------------------------------------------------ *)
(** ** Links, the digest and the error message *)

Section DigestMore.
Import PyStr Driver Extraction PageState Summary Exceptions.

(** X17. [get_links] keeps the links in page order with their texts and
    targets, and takes a link for internal exactly when its target
    starts with the page origin, as a string. *)
Theorem get_links_internal (raw : list (string * string)) (origin : string) :
  map text (get_links raw origin) = map fst raw /\
  map href (get_links raw origin) = map snd raw /\
  (forall l, In l (get_links raw origin) ->
     (is_external l = false <-> exists rest, href l = (origin ++ rest)%string)) /\
  (forall t rest, In (t, (origin ++ rest)%string) raw ->
     In (mkLink t (origin ++ rest) false) (get_links raw origin)).
Proof.
  unfold get_links. split; [|split; [|split]].
  - rewrite map_map. reflexivity.
  - rewrite map_map. reflexivity.
  - intros l Hin. apply in_map_iff in Hin. destruct Hin as [[t h] [<- _]].
    cbn [is_external href fst snd]. unfold startswith.
    rewrite negb_false_iff. apply prefix_app.
  - intros t rest Hin. apply in_map_iff. exists (t, (origin ++ rest)%string).
    split; [|exact Hin]. cbn [fst snd]. f_equal. unfold startswith.
    apply negb_false_iff, prefix_app. now exists rest.
Qed.

Lemma flat_map_option_length {A B : Type} (f : A -> option B) (l : list A) :
  List.length (flat_map (fun x => match f x with Some y => [y] | None => [] end) l)
  <= List.length l.
Proof.
  induction l as [|x l IH]; [reflexivity|]. cbn [flat_map].
  rewrite length_app. destruct (f x); simpl; lia.
Qed.

Lemma slice_to_length {A : Type} (l : list A) (n : nat) :
  List.length (Py.slice_to l (Z.of_nat n)) <= n.
Proof.
  unfold Py.slice_to.
  replace (0 <=? Z.of_nat n)%Z with true by (symmetry; apply Z.leb_le; lia).
  rewrite Nat2Z.id. apply firstn_le_length.
Qed.

(** X18. A role contributes to the digest at most as many entries as the
    item limit allows and at most one per element of the role; with a
    limit of zero or less it contributes none. An element that is not
    visible, or whose visibility cannot be read, gives no entry. *)
Theorem role_entries_bounded (view : PageView) (max_items : Z) (r : string) :
  List.length (role_entries view max_items r) <= Z.to_nat max_items /\
  List.length (role_entries view max_items r) <= List.length (by_role view r) /\
  ((max_items <= 0)%Z -> role_entries view max_items r = []) /\
  (forall el, re_visible el <> Some true -> element_entry r el = None).
Proof.
  assert (Hhidden : forall el, re_visible el <> Some true ->
                               element_entry r el = None).
  { intros el Hv. unfold element_entry.
    destruct (re_visible el) as [[|]|]; [congruence | reflexivity | reflexivity]. }
  unfold role_entries.
  set (els := by_role view r).
  set (n := Z.to_nat (Z.min (Z.of_nat (List.length els)) max_items)).
  pose proof (flat_map_option_length (element_entry r) (firstn n els)) as Hle.
  pose proof (firstn_le_length n els) as Hn.
  rewrite length_firstn in Hle.
  split; [subst n; lia|]. split; [lia|]. split; [|exact Hhidden].
  intros Hneg. replace n with 0 by (subst n; lia). reflexivity.
Qed.

Variable repr_list : list string -> string.

Lemma forms_loop_length (forms : list DetectedForm) :
  forall j, List.length (forms_loop repr_list j forms) <= 12 * List.length forms.
Proof.
  induction forms as [|form forms IH]; intros j; [reflexivity|].
  cbn [forms_loop]. rewrite length_app. specialize (IH (S j)).
  unfold form_lines. rewrite !length_app, length_map.
  pose proof (slice_to_length (fields form) 10) as Hf.
  change (Z.of_nat 10) with 10%Z in Hf. simpl List.length. lia.
Qed.

Lemma forms_section_length (forms : list DetectedForm) :
  2 <= List.length (forms_section repr_list forms) <= 38.
Proof.
  unfold forms_section. rewrite length_app.
  destruct forms as [|form rest]; [simpl; lia|].
  pose proof (forms_loop_length (Py.slice_to (form :: rest) 3) 0) as Hl.
  pose proof (slice_to_length (form :: rest) 3) as Hs.
  change (Z.of_nat 3) with 3%Z in Hs. simpl List.length in *. lia.
Qed.

Lemma content_section_length (text : string) :
  List.length (content_section text) <= 9.
Proof.
  unfold content_section. destruct (strip text) as [|c stripped]; [simpl; lia|].
  generalize (String c stripped) as body. intros body.
  pose proof (slice_to_length (split_lines body) 8) as Hs.
  change (Z.of_nat 8) with 8%Z in Hs.
  assert (Hle : forall l : list string,
            List.length (flat_map (fun line => match strip line with
                                               | EmptyString => []
                                               | String a b => [("  " ++ String a b)%string]
                                               end) l) <= List.length l).
  { induction l as [|x l IH]; [reflexivity|]. cbn [flat_map].
    rewrite length_app. destruct (strip x); cbn [List.length]; lia. }
  specialize (Hle (Py.slice_to (split_lines body) 8)).
  cbn [List.length]. lia.
Qed.

Lemma navigation_lines_length (links : list Link) (max_items : Z) :
  List.length (navigation_lines links max_items) <= 2.
Proof.
  unfold navigation_lines. rewrite length_app.
  destruct (nav_links links max_items); simpl; lia.
Qed.

Lemma role_entries_total (view : PageView) (max_items : Z) (roles : list string) :
  List.length (flat_map (role_entries view max_items) roles)
  <= List.length roles * Z.to_nat max_items.
Proof.
  induction roles as [|r roles IH]; [reflexivity|]. cbn [flat_map].
  rewrite length_app.
  assert (Hr : List.length (role_entries view max_items r) <= Z.to_nat max_items).
  { unfold role_entries.
    match goal with |- context [firstn ?n ?els] =>
      pose proof (flat_map_option_length (element_entry r) (firstn n els)) as Hle;
      rewrite length_firstn in Hle end.
    lia. }
  simpl List.length. lia.
Qed.

(** X19. The digest is bounded whatever the page holds: it starts with the
    URL line, the title line (with [unknown] and [untitled] when the page
    gives none), a blank line and the elements header, and it has at most
    54 lines plus eight times the item limit. *)
Theorem summary_bounded (view : PageView) (max_items : Z) :
  firstn 4 (summary_lines repr_list view max_items)
  = [("URL: " ++ Py.get "url" "unknown" (meta view))%string;
     ("Title: " ++ Py.get "title" "untitled" (meta view))%string;
     ""; "VISIBLE ELEMENTS:"] /\
  (meta view = [] ->
   firstn 2 (summary_lines repr_list view max_items)
   = ["URL: unknown"; "Title: untitled"]) /\
  List.length (summary_lines repr_list view max_items)
  <= 54 + 8 * Z.to_nat max_items.
Proof.
  unfold summary_lines. split; [reflexivity|]. split.
  - intros ->. reflexivity.
  - rewrite !length_app.
    pose proof (role_entries_total view max_items summary_roles) as Hr.
    pose proof (forms_section_length (view_forms view)) as Hf.
    pose proof (navigation_lines_length
                  (get_links (raw_links view) (origin view)) max_items) as Hn.
    pose proof (content_section_length (text_content view)) as Hc.
    change (List.length summary_roles) with 8 in Hr.
    cbn [List.length]. lia.
Qed.

(** X20. The message of a failed resolution starts with the sentence that
    quotes the query, so it contains the query; it is that sentence alone
    when there is no suggestion, and it shows the first ten suggestions
    at most. *)
Theorem not_found_message_shape (q : string) (available : list string) :
  contains q (not_found_message repr_list q available) = true /\
  startswith ("Element '" ++ q ++ "' not found.")
    (not_found_message repr_list q available) = true /\
  not_found_message repr_list q [] = ("Element '" ++ q ++ "' not found.")%string /\
  not_found_message repr_list q available
  = not_found_message repr_list q (firstn 10 available).
Proof.
  assert (Hpre : exists rest,
            not_found_message repr_list q available
            = (("Element '" ++ q ++ "' not found.") ++ rest)%string).
  { unfold not_found_message. destruct available.
    - exists EmptyString. clear.
      generalize ("Element '" ++ q ++ "' not found.")%string as m.
      induction m as [|c m IH]; [reflexivity|]. simpl. now rewrite <- IH.
    - eexists. reflexivity. }
  split; [|split; [|split]].
  - destruct Hpre as [rest ->]. apply contains_app.
    exists "Element '"%string, ("' not found." ++ rest)%string.
    clear. simpl. do 9 f_equal.
    induction q as [|c q IH]; [reflexivity|]. simpl. now rewrite IH.
  - unfold startswith. now apply prefix_app.
  - reflexivity.
  - unfold not_found_message, Py.slice_to.
    change (0 <=? 10)%Z with true. change (Z.to_nat 10) with 10. cbv iota.
    destruct available as [|s l]; [reflexivity|].
    rewrite firstn_firstn. reflexivity.
Qed.

End DigestMore.

(* ------------------------------------------------------------------ *)
(** ** The properties at work on concrete inputs *)

Section Runs.
Import Py Driver Config Elements Actions Trace Recorder Store Agent
       Fixtures Samples.

(** On the shop page nothing matches [Pay now]: the error carries the
    page's two buttons and its link, names stripped. *)
Lemma not_found_suggestions_witness :
  fst (find_element shop_page "Pay now" None w0)
  = Raise (ElementNotFoundError "Pay now"
             ["[button] Add to cart"; "[button] Checkout"; "[link] Home"]) /\
  exists avail,
    ElementNotFoundError "Pay now"
      ["[button] Add to cart"; "[button] Checkout"; "[link] Home"]
    = ElementNotFoundError "Pay now" avail /\
    List.length avail <= 15.
Proof.
  assert (Hfail : fst (find_element shop_page "Pay now" None w0)
                  = Raise (ElementNotFoundError "Pay now"
                             ["[button] Add to cart"; "[button] Checkout";
                              "[link] Home"]))
    by (vm_compute; reflexivity).
  split; [exact Hfail|].
  destruct (not_found_suggestions shop_page "Pay now" None w0 _ Hfail)
    as [avail [Heq [Hlen _]]].
  exists avail. split; assumption.
Defined.

(** On the late form of the fixtures, three attempts allowed: the second
    attempt finds the field. *)
Lemma with_retry_any_page_witness :
  exists k r w' evs,
    1 <= k <= 3 /\
    _with_retry late_email_page "Email" default_retry w0 = (r, w') /\
    trace w' = trace w0 ++ evs /\
    now w' = now w0 + (k - 1) /\
    attempts_and_sleeps evs = retry_shape "Email" 1000 k /\
    count_attempts evs = k /\
    sleeps_of evs = repeat 1000%Z (k - 1) /\
    ((exists d, r = Ok d) \/
     (k = 3 /\ exists avail, r = Raise (ElementNotFoundError "Email" avail))) /\
    (forall j tr, j < k - 1 ->
       exists avail, attempt late_email_page "Email" default_retry (now w0 + j) tr =
                     Raise (ElementNotFoundError "Email" avail)) /\
    (forall tr, r = attempt late_email_page "Email" default_retry
                      (now w0 + (k - 1)) tr).
Proof.
  apply (with_retry_any_page late_email_page "Email" default_retry w0 3);
    [reflexivity | lia].
Defined.

(** Normalising a text with capitals and runs of spaces, and a blank
    query against a button name. *)
Lemma normalize_idempotent_witness :
  Matching._normalize "  Hello   big World " = "hello big world" /\
  Matching._fuzzy_match "   " "Checkout" = true.
Proof.
  destruct (normalize_idempotent "  Hello   big World " "")
    as [_ [_ [_ [_ [Hwords _]]]]].
  destruct (normalize_idempotent "   " "Checkout")
    as [_ [_ [_ [_ [_ [_ [_ [_ Hblank]]]]]]]].
  split; [rewrite Hwords; vm_compute; reflexivity | apply Hblank; reflexivity].
Defined.

(** A click under pacing whose bounds are the wrong way round: the box
    is clicked, then the pause raises. *)
Lemma verbs_act_once_witness :
  exists w' evs,
    Actions.click (subscribe_page false) "Subscribe" default_retry
      broken_pacing w0 = (Raise ValueError, w') /\
    trace w' = trace w0 ++ evs /\
    Observe.interactions evs = [EvClick 3].
Proof.
  destruct (verbs_act_once (subscribe_page false) "Subscribe" "" default_retry
              broken_pacing w0)
    as [[r [w' [evs [Hrun [Htr [Hint Hr]]]]]] _].
  assert (Hfound : fst (_with_retry (subscribe_page false) "Subscribe"
                          default_retry w0)
                   = Ok (mkFoundElement (subscribe_box false) "input" ""
                           None (Some "Subscribe")))
    by (vm_compute; reflexivity).
  rewrite Hfound in Hint, Hr. cbn in Hr. subst r.
  exists w', evs. split; [exact Hrun|]. split; [exact Htr | exact Hint].
Defined.


(** Filling the sign-up form and submitting it: the button the form
    names is looked up once and clicked. *)
Lemma fill_form_submit_total_witness :
  exists w2 evs,
    Forms.fill_form signup_page [("Subscribe", "yes")] true default_retry
      no_stealth w0 = (Ok tt, w2) /\
    trace w2 =
      trace (snd (Forms.fill_fields signup_page [("Subscribe", "yes")]
                    default_retry no_stealth w0)) ++ evs /\
    Observe.finds_of evs = ["Sign up"] /\
    Observe.interactions evs = [EvClick 4].
Proof.
  destruct (fill_form_submit_total signup_page [("Subscribe", "yes")]
              default_retry no_stealth w0) as [_ [_ Hsubmit]].
  destruct (Hsubmit (snd (Forms.fill_fields signup_page [("Subscribe", "yes")]
                            default_retry no_stealth w0)))
    as [w2 [evs [Hrun [Htr [_ Hact]]]]].
  { vm_compute. reflexivity. }
  exists w2, evs. split; [exact Hrun|]. split; [exact Htr|]. exact Hact.
Defined.

(** A click on a page with nothing on it, an agent recording: the click
    fails after its three attempts and is in the recording all the
    same. *)
Lemma verbs_record_before_running_witness :
  fst (fst (AgentVerbs.click 12 empty_page "Pay" recording_agent w0))
  = Raise (ElementNotFoundError "Pay" []) /\
  _actions (AgentVerbs._recorder
              (snd (AgentVerbs.click 12 empty_page "Pay" recording_agent w0)))
  = [mkRecordedAction (VStr "click") (VDict [("query", VStr "Pay")])
       (VFloat 2)].
Proof.
  destruct (verbs_record_before_running 12 empty_page "Pay" "" [] false
              recording_agent w0) as [_ [Hstarted [Hrecorded _]]].
  destruct (Hstarted eq_refl) as [Hclick _].
  destruct (Hrecorded eq_refl eq_refl) as [Hactions _].
  split.
  - rewrite Hclick. vm_compute. reflexivity.
  - rewrite Hactions. vm_compute. reflexivity.
Defined.

Lemma with_retry_no_budget_witness :
  _with_retry late_email_page "Email" (mkRetryConfig 0 1000 10000) w0
  = (Raise TypeError, w0).
Proof.
  apply (with_retry_no_budget late_email_page "Email"
           (mkRetryConfig 0 1000 10000) w0).
  simpl. lia.
Defined.


(** A session of a navigation and a click, saved as [demo] and
    replayed. *)
Lemma recorded_session_replays_witness :
  replay no_inherited all_return readable true
    (save_to
       (snd (stop (record_all
                     [ (11%float, "goto", [("url", VStr "https://example.com")]);
                       (12%float, "click", [("query", VStr "Submit")]) ]
                     (start 10%float init))))
       "demo" (fun _ => None) "a demo")
    "demo" []
  = (Ok tt,
     [] ++ map (fun c : float * string * Dict => (snd (fst c), snd c))
             [ (11%float, "goto", [("url", VStr "https://example.com")]);
               (12%float, "click", [("query", VStr "Submit")]) ]).
Proof.
  apply (recorded_session_replays no_inherited all_return readable init
           10%float
           [ (11%float, "goto", [("url", VStr "https://example.com")]);
             (12%float, "click", [("query", VStr "Submit")]) ]
           "demo" "a demo" (fun _ => None) []).
  - reflexivity.
  - repeat constructor; simpl; tauto.
Defined.

End Runs.
